(** * output_codebase.py: combining a directory tree into one text file

    A shallow embedding of [src/output_codebase.py] and the properties of
    its traversal, filters, per-file read/write loop and exit codes.

    Conventions of the model.
    - A Python [str] is a Rocq [string].  Text that went through a file is
      represented by its UTF-8 encoding, one [ascii] per byte; file and
      directory names are taken over the 7-bit alphabet, on which
      [str.lower] only moves [A-Z].
    - The platform is POSIX: [os.path] is [posixpath], the separator is
      [/], and [os.linesep] is a single line feed.
    - Python integers are unbounded: indices are [Z] (with [-1] for "not
      found"), counters are [nat].
    - Effects are explicit: the process state carries the text written to
      the output file, standard output, the diagnostic stream, the list of
      input paths handed to [open], and the two counters. *)

From Stdlib Require Import Bool Arith ZArith Lia List Ascii String.
From Stdlib Require Import Numbers.DecimalString.
Import ListNotations.
Open Scope string_scope.

(** ** Python string primitives *)

Definition slash : ascii := "/"%char.
Definition dot : ascii := "."%char.

(** [s.startswith(p)] *)
Definition startswith (s p : string) : bool := String.prefix p s.

(** [s.endswith(c)] for a one-character suffix. *)
Fixpoint endswith_char (s : string) (c : ascii) : bool :=
  match s with
  | EmptyString => false
  | String a EmptyString => Ascii.eqb a c
  | String _ r => endswith_char r c
  end.

(** [s.rfind(c)]: the highest index of [c] in [s], or [-1]. *)
Fixpoint rfind (s : string) (c : ascii) : Z :=
  match s with
  | EmptyString => (-1)%Z
  | String a r =>
      let i := rfind r c in
      if (0 <=? i)%Z then (i + 1)%Z
      else if Ascii.eqb a c then 0%Z else (-1)%Z
  end.

(** [s[:i]] and [s[i:]] for [0 <= i]. *)
Definition slice_to (s : string) (i : Z) : string :=
  substring 0 (Z.to_nat i) s.

Definition slice_from (s : string) (i : Z) : string :=
  substring (Z.to_nat i) (length s - Z.to_nat i) s.

(** [s[i:i+1]]: the one-character string at [i], empty past the end. *)
Definition slice1 (s : string) (i : Z) : string :=
  substring (Z.to_nat i) 1 s.

(** [s.split(sep)] for a one-character separator: never the empty list. *)
Fixpoint split (sep : ascii) (s : string) : list string :=
  match s with
  | EmptyString => [EmptyString]
  | String a r =>
      if Ascii.eqb a sep then EmptyString :: split sep r
      else match split sep r with
           | [] => [String a EmptyString]
           | h :: t => String a h :: t
           end
  end.

(** [c.lower()] and [s.lower()] on the 7-bit alphabet. *)
Definition lower_char (a : ascii) : ascii :=
  let n := nat_of_ascii a in
  if (65 <=? n)%nat && (n <=? 90)%nat then ascii_of_nat (n + 32) else a.

Fixpoint lower (s : string) : string :=
  match s with
  | EmptyString => EmptyString
  | String a r => String (lower_char a) (lower r)
  end.

(** [str(n)] for a non-negative integer. *)
Definition str_of_nat (n : nat) : string :=
  NilZero.string_of_uint (Nat.to_uint n).

(** Membership in a set of strings: exact string equality. *)
Definition str_in (x : string) (s : list string) : bool :=
  existsb (String.eqb x) s.

(** ** posixpath *)

(** [os.path.join(a, b)] *)
Definition join (a b : string) : string :=
  if startswith b "/" then b
  else if (a =? "") || endswith_char a slash then a ++ b
  else a ++ "/" ++ b.

(** [os.path.join] applied to a non-empty argument list [l]. *)
Definition join_all (l : list string) : string :=
  match l with
  | [] => ""
  | a :: p => fold_left join p a
  end.

(** The [while] loop of [genericpath._splitext]: is some character in
    [p[filenameIndex:dotIndex]] not a dot?  [n] bounds the iterations. *)
Fixpoint splitext_scan (p : string) (dotIndex : Z) (n : nat)
    (filenameIndex : Z) : bool :=
  match n with
  | O => false
  | S n' =>
      if (filenameIndex <? dotIndex)%Z then
        if negb (slice1 p filenameIndex =? ".") then true
        else splitext_scan p dotIndex n' (filenameIndex + 1)%Z
      else false
  end.

(** [os.path.splitext(p)] *)
Definition splitext (p : string) : string * string :=
  let sepIndex := rfind p slash in
  let dotIndex := rfind p dot in
  if (sepIndex <? dotIndex)%Z
     && splitext_scan p dotIndex (Z.to_nat (dotIndex - sepIndex)) (sepIndex + 1)%Z
  then (slice_to p dotIndex, slice_from p dotIndex)
  else (p, "").

(** One iteration of the component loop of [normpath]; [new_comps] is the
    list built so far. *)
Definition normpath_step (initial_slashes : nat) (new_comps : list string)
    (comp : string) : list string :=
  if (comp =? "") || (comp =? ".") then new_comps
  else if negb (comp =? "..")
          || (Nat.eqb initial_slashes 0 && Nat.eqb (List.length new_comps) 0)
          || (negb (Nat.eqb (List.length new_comps) 0)
              && (last new_comps "" =? ".."))
       then (new_comps ++ [comp])%list
       else removelast new_comps.

Definition initial_slashes_of (path : string) : nat :=
  if startswith path "/" then
    if startswith path "//" && negb (startswith path "///") then 2 else 1
  else 0.

(** [os.path.normpath(path)] *)
Definition normpath (path : string) : string :=
  if path =? "" then "."
  else
    let initial_slashes := initial_slashes_of path in
    let comps := fold_left (normpath_step initial_slashes) (split slash path) [] in
    let path := String.concat "/" comps in
    let path := match initial_slashes with
                | 0 => path
                | 1 => "/" ++ path
                | _ => "//" ++ path
                end in
    if path =? "" then "." else path.

(** [os.path.abspath(path)], with [cwd] the value of [os.getcwd()]. *)
Definition abspath (cwd path : string) : string :=
  normpath (if startswith path "/" then path else join cwd path).

(** Length of the longest common prefix of two component lists: what
    [len(commonprefix([l1, l2]))] computes. *)
Fixpoint common_prefix_len (l1 l2 : list string) : nat :=
  match l1, l2 with
  | a :: r1, b :: r2 => if a =? b then S (common_prefix_len r1 r2) else 0
  | _, _ => 0
  end.

Definition nonempty_comps (p : string) : list string :=
  filter (fun x => negb (x =? "")) (split slash p).

(** [os.path.relpath(path, start)] for a non-empty [path] (on the empty
    path Python raises [ValueError]; the paths built by the walk are never
    empty, see [join_nonempty] and [os_walk_dirpaths_nonempty]). *)
Definition relpath (cwd path start : string) : string :=
  let start_list := nonempty_comps (abspath cwd start) in
  let path_list := nonempty_comps (abspath cwd path) in
  let i := common_prefix_len start_list path_list in
  let rel_list := (repeat ".." (List.length start_list - i) ++ skipn i path_list)%list in
  match rel_list with
  | [] => "."
  | _ => join_all rel_list
  end.

(** ** Text-mode reading: [open(path, "r", encoding="utf-8", errors="ignore")] *)

Definition byte_val (a : ascii) : nat := nat_of_ascii a.

(** A UTF-8 continuation byte, [80..BF]. *)
Definition is_cont (a : ascii) : bool :=
  (128 <=? byte_val a)%nat && (byte_val a <=? 191)%nat.

(** The second byte allowed after the lead byte [b0] of a three-byte
    sequence: [E0] needs [A0..BF], [ED] needs [80..9F]. *)
Definition second_of_3 (b0 b1 : ascii) : bool :=
  is_cont b1
  && negb (if (byte_val b1 <? 160)%nat then Nat.eqb (byte_val b0) 224
           else Nat.eqb (byte_val b0) 237).

(** The second byte allowed after the lead byte [b0] of a four-byte
    sequence: [F0] needs [90..BF], [F4] needs [80..8F]. *)
Definition second_of_4 (b0 b1 : ascii) : bool :=
  is_cont b1
  && negb (if (byte_val b1 <? 144)%nat then Nat.eqb (byte_val b0) 240
           else Nat.eqb (byte_val b0) 244).

(** The [utf-8] codec with the [ignore] error handler, on the whole file
    ([final=True]).  Well-formed sequences are kept; an invalid start byte
    is dropped; after an invalid continuation the bytes read so far are
    dropped and decoding resumes at the offending byte; a sequence cut by
    the end of the data is dropped. *)
Fixpoint decode_utf8_ignore (s : string) : string :=
  match s with
  | EmptyString => EmptyString
  | String b0 r0 =>
      if (byte_val b0 <? 128)%nat then String b0 (decode_utf8_ignore r0)
      else if (byte_val b0 <? 194)%nat then decode_utf8_ignore r0
      else if (byte_val b0 <? 224)%nat then
        match r0 with
        | EmptyString => EmptyString
        | String b1 r1 =>
            if is_cont b1 then String b0 (String b1 (decode_utf8_ignore r1))
            else decode_utf8_ignore r0
        end
      else if (byte_val b0 <? 240)%nat then
        match r0 with
        | EmptyString => EmptyString
        | String b1 r1 =>
            if second_of_3 b0 b1 then
              match r1 with
              | EmptyString => EmptyString
              | String b2 r2 =>
                  if is_cont b2
                  then String b0 (String b1 (String b2 (decode_utf8_ignore r2)))
                  else decode_utf8_ignore r1
              end
            else decode_utf8_ignore r0
        end
      else if (byte_val b0 <? 245)%nat then
        match r0 with
        | EmptyString => EmptyString
        | String b1 r1 =>
            if second_of_4 b0 b1 then
              match r1 with
              | EmptyString => EmptyString
              | String b2 r2 =>
                  if is_cont b2 then
                    match r2 with
                    | EmptyString => EmptyString
                    | String b3 r3 =>
                        if is_cont b3
                        then String b0 (String b1 (String b2 (String b3
                               (decode_utf8_ignore r3))))
                        else decode_utf8_ignore r2
                    end
                  else decode_utf8_ignore r1
              end
            else decode_utf8_ignore r0
        end
      else decode_utf8_ignore r0
  end.

Definition CR : ascii := ascii_of_nat 13.
Definition LF : ascii := ascii_of_nat 10.

(** Universal newlines ([newline=None] on read): [\r\n] and a lone [\r]
    both become [\n]. *)
Fixpoint universal_newlines (s : string) : string :=
  match s with
  | EmptyString => EmptyString
  | String c r =>
      if Ascii.eqb c CR then
        match r with
        | String c' r' =>
            if Ascii.eqb c' LF then String LF (universal_newlines r')
            else String LF (universal_newlines r)
        | EmptyString => String LF EmptyString
        end
      else String c (universal_newlines r)
  end.

(** [infile.read()] on a file holding [bytes]. *)
Definition read_text (bytes : string) : string :=
  universal_newlines (decode_utf8_ignore bytes).

(** ** Configuration: what to ignore *)

Definition IGNORED_DIRS : list string :=
  [ ".git"; ".vscode"; "__pycache__"; "node_modules"; "build"; "dist";
    "venv"; ".venv"; "env"; ".env"; "target"; "logs" ].

Definition IGNORED_FILES : list string :=
  [ ".DS_Store"; "package-lock.json"; "yarn.lock"; "poetry.lock";
    "Pipfile.lock" ].

Definition IGNORED_EXTENSIONS : list string :=
  [ ".pyc"; ".pyo"; ".class"; ".o"; ".so"; ".dll"; ".exe"; ".log"; ".lock";
    ".swp"; ".swo";
    ".png"; ".jpg"; ".jpeg"; ".gif"; ".bmp"; ".tiff";
    ".pdf"; ".doc"; ".docx"; ".xls"; ".xlsx"; ".ppt"; ".pptx";
    ".zip"; ".tar"; ".gz"; ".rar"; ".7z";
    ".mp3"; ".wav"; ".ogg";
    ".mp4"; ".avi"; ".mov"; ".mkv" ].

(** ** The file system seen by the run *)

(** What opening and fully reading a file does: it yields the bytes of the
    file, or raises an [OSError] (permission denied, file gone, device
    error, ...), or raises another [Exception]; [e] is [str(e)]. *)
Inductive read_outcome :=
| ReadBytes (bytes : string)
| ReadOSError (e : string)
| ReadException (e : string).

(** A directory is the list of its entries in [scandir] order; every
    entry that is not a directory is a [File]. *)
#[warnings="-register-all"]
Inductive node :=
| File (r : read_outcome)
| Dir (entries : list (string * node)).

Fixpoint dirnames (es : list (string * node)) : list string :=
  match es with
  | [] => []
  | (d, Dir _) :: l => d :: dirnames l
  | (_, File _) :: l => dirnames l
  end.

Fixpoint filenames (es : list (string * node)) : list (string * read_outcome) :=
  match es with
  | [] => []
  | (f, File r) :: l => (f, r) :: filenames l
  | (_, Dir _) :: l => filenames l
  end.

(** One value yielded by [os.walk]: [(dirpath, dirnames, filenames)]; each
    file name comes with what reading that file will do. *)
Definition walk_item : Type :=
  string * list string * list (string * read_outcome).

(** [os.walk(top, topdown=True)] over the directory [n] at path [top].
    The directory is yielded first; [prune] is what the consumer leaves in
    [dirnames] before the generator resumes, and only the subdirectories
    still listed are walked, each at [join(top, name)].  Walking something
    that is not a directory yields nothing. *)
Fixpoint os_walk (prune : list string -> list string) (top : string) (n : node)
    : list walk_item :=
  match n with
  | File _ => []
  | Dir es =>
      let dirs := prune (dirnames es) in
      (top, dirnames es, filenames es) ::
      (fix descend (l : list (string * node)) : list walk_item :=
         match l with
         | [] => []
         | (d, sub) :: l' =>
             ((if str_in d dirs then os_walk prune (join top d) sub else [])
              ++ descend l')%list
         end) es
  end.

(** The process and its environment. *)
Record world := mkWorld {
  getcwd : string;                 (* os.getcwd(), an absolute path *)
  input_node : option node;        (* what args.input_dir names, if anything *)
  output_error : option string     (* the OSError of opening the output, if any *)
}.

Record state := mkState {
  outfile : option string;         (* text of the output file, once opened *)
  stdout : list string;            (* one element per print() *)
  stderr : list string;            (* one element per print(file=sys.stderr) *)
  opened : list string;            (* input paths handed to open(), in order *)
  processed_files : nat;
  skipped_files : nat
}.

Definition initial_state : state := mkState None [] [] [] 0 0.

Definition nl : string := String LF EmptyString.

Definition print (line : string) (st : state) : state :=
  mkState (outfile st) (stdout st ++ [line]) (stderr st) (opened st)
          (processed_files st) (skipped_files st).

Definition eprint (line : string) (st : state) : state :=
  mkState (outfile st) (stdout st) (stderr st ++ [line]) (opened st)
          (processed_files st) (skipped_files st).

(** [open(output_file, "w")]: the file is created empty. *)
Definition open_output (st : state) : state :=
  mkState (Some EmptyString) (stdout st) (stderr st) (opened st)
          (processed_files st) (skipped_files st).

(** [outfile.write(text)] *)
Definition write (text : string) (st : state) : state :=
  mkState (match outfile st with
           | Some t => Some (t ++ text)
           | None => None
           end)
          (stdout st) (stderr st) (opened st)
          (processed_files st) (skipped_files st).

(** [open(file_path, "r", ...)] on an input file. *)
Definition open_input (file_path : string) (st : state) : state :=
  mkState (outfile st) (stdout st) (stderr st) (opened st ++ [file_path])
          (processed_files st) (skipped_files st).

Definition incr_processed (st : state) : state :=
  mkState (outfile st) (stdout st) (stderr st) (opened st)
          (S (processed_files st)) (skipped_files st).

Definition incr_skipped (st : state) : state :=
  mkState (outfile st) (stdout st) (stderr st) (opened st)
          (processed_files st) (S (skipped_files st)).

(** ** The program *)

Definition start_marker (relative_path : string) : string :=
  "--- START FILE: " ++ relative_path ++ " ---" ++ nl.

Definition end_marker (relative_path : string) : string :=
  nl ++ "--- END FILE: " ++ relative_path ++ " ---" ++ nl ++ nl.

(** [dirnames[:] = [d for d in dirnames if d not in IGNORED_DIRS]] *)
Definition prune_dirs (dirnames : list string) : list string :=
  filter (fun d => negb (str_in d IGNORED_DIRS)) dirnames.

(** The [try] block around one candidate file: open and read it, then
    write its record; either [except] clause reports and counts a skip. *)
Definition read_and_write (file_path relative_path : string)
    (r : read_outcome) (st : state) : state :=
  let st := open_input file_path st in
  match r with
  | ReadBytes bytes =>
      let content := read_text bytes in
      let st := print ("Processing: " ++ relative_path) st in
      let st := write (start_marker relative_path) st in
      let st := write content st in
      let st := write (end_marker relative_path) st in
      incr_processed st
  | ReadOSError e =>
      let st := eprint ("Error reading file " ++ file_path ++ ": " ++ e) st in
      incr_skipped st
  | ReadException e =>
      let st :=
        eprint ("Unexpected error processing file " ++ file_path ++ ": " ++ e) st in
      incr_skipped st
  end.

(** The body of [for filename in filenames]. *)
Definition process_file (cwd abs_input_dir abs_output_file dirpath : string)
    (f : string * read_outcome) (st : state) : state :=
  let (filename, r) := f in
  if str_in filename IGNORED_FILES then
    incr_skipped (print ("Skipping ignored file: " ++ filename) st)
  else
    let extension := snd (splitext filename) in
    if str_in (lower extension) IGNORED_EXTENSIONS then
      incr_skipped (print ("Skipping file with ignored extension: " ++ filename) st)
    else
      let file_path := join dirpath filename in
      if abspath cwd file_path =? abs_output_file then
        incr_skipped (print ("Skipping the output file itself: " ++ file_path) st)
      else
        let relative_path := relpath cwd file_path abs_input_dir in
        read_and_write file_path relative_path r st.

(** The body of [for dirpath, dirnames, filenames in os.walk(...)]: the
    pruning of [dirnames] is the [prune_dirs] handed to [os_walk]. *)
Definition process_dir (cwd abs_input_dir abs_output_file : string)
    (st : state) (item : walk_item) : state :=
  let '(dirpath, _, filenames) := item in
  fold_left
    (fun st f => process_file cwd abs_input_dir abs_output_file dirpath f st)
    filenames st.

Definition walk_of (w : world) (abs_input_dir : string) : list walk_item :=
  match input_node w with
  | Some n => os_walk prune_dirs abs_input_dir n
  | None => []
  end.

(** [combine_files(input_dir, output_file)] *)
Definition combine_files (w : world) (input_dir output_file : string)
    (st : state) : state :=
  let abs_input_dir := abspath (getcwd w) input_dir in
  let abs_output_file := abspath (getcwd w) output_file in
  match output_error w with
  | Some e =>
      eprint ("Error opening or writing to output file " ++ output_file
              ++ ": " ++ e) st
  | None =>
      let st := open_output st in
      let st := write ("# Combined content from directory: " ++ abs_input_dir ++ nl) st in
      let st := write ("# Output file: " ++ abs_output_file ++ nl) st in
      let st := write ("# --- START OF COMBINED CONTENT ---" ++ nl ++ nl) st in
      let st :=
        fold_left (process_dir (getcwd w) abs_input_dir abs_output_file)
                  (walk_of w abs_input_dir) st in
      let st := write ("# --- END OF COMBINED CONTENT ---" ++ nl) st in
      let st :=
        print (nl ++ "Successfully combined " ++ str_of_nat (processed_files st)
               ++ " files into '" ++ output_file ++ "'.") st in
      if (0 <? skipped_files st)%nat then
        print ("Skipped " ++ str_of_nat (skipped_files st)
               ++ " files (ignored, binary, or read errors).") st
      else st
  end.

(** [os.path.isdir(args.input_dir)] *)
Definition isdir (w : world) : bool :=
  match input_node w with
  | Some (Dir _) => true
  | _ => false
  end.

(** The [__main__] block after [parse_args]: the exit status and the final
    state.  Falling off the end of the script is exit status 0. *)
Definition main (w : world) (input_dir output : string) : Z * state :=
  if negb (isdir w) then
    (1%Z,
     eprint ("Error: Input directory '" ++ input_dir
             ++ "' not found or is not a directory.") initial_state)
  else
    (0%Z, combine_files w input_dir output initial_state).

(** ** Notions used to state the properties *)

(** Does [c] occur in [s]? *)
Fixpoint has_char (c : ascii) (s : string) : bool :=
  match s with
  | EmptyString => false
  | String a r => Ascii.eqb a c || has_char c r
  end.

(** A path component that [normpath] keeps as it is: not empty, not [.],
    not [..], and without a separator. *)
Definition clean_comp (c : string) : bool :=
  negb (c =? "") && negb (c =? ".") && negb (c =? "..")
  && negb (has_char slash c).

(** Well-formed UTF-8, by the same table as the decoder. *)
Fixpoint utf8_valid (s : string) : bool :=
  match s with
  | EmptyString => true
  | String b0 r0 =>
      if (byte_val b0 <? 128)%nat then utf8_valid r0
      else if (byte_val b0 <? 194)%nat then false
      else if (byte_val b0 <? 224)%nat then
        match r0 with
        | String b1 r1 => is_cont b1 && utf8_valid r1
        | EmptyString => false
        end
      else if (byte_val b0 <? 240)%nat then
        match r0 with
        | String b1 (String b2 r2) =>
            second_of_3 b0 b1 && is_cont b2 && utf8_valid r2
        | _ => false
        end
      else if (byte_val b0 <? 245)%nat then
        match r0 with
        | String b1 (String b2 (String b3 r3)) =>
            second_of_4 b0 b1 && is_cont b2 && is_cont b3 && utf8_valid r3
        | _ => false
        end
      else false
  end.

(** The tree with every ignored subdirectory emptied, at every depth: a
    directory entry whose name is in [IGNORED_DIRS] keeps its name and
    loses all its content. *)
Fixpoint erase_ignored (n : node) : node :=
  match n with
  | File r => File r
  | Dir es =>
      Dir (map (fun e : string * node =>
                  let (d, sub) := e in
                  (d, match sub with
                      | File _ => sub
                      | Dir _ =>
                          if str_in d IGNORED_DIRS then Dir []
                          else erase_ignored sub
                      end)) es)
  end.

(** The files the walk comes across: every non-directory entry of the
    root directory and, recursively, of each subdirectory whose name is
    not in [IGNORED_DIRS]; nothing inside an ignored subdirectory. *)
Fixpoint files_encountered (n : node) : nat :=
  match n with
  | File _ => 0
  | Dir es =>
      (fix count (l : list (string * node)) : nat :=
         match l with
         | [] => 0
         | (d, sub) :: l' =>
             match sub with
             | File _ => 1
             | Dir _ =>
                 if str_in d IGNORED_DIRS then 0 else files_encountered sub
             end + count l'
         end) es
  end.

(** The directory entries the walk comes across, files and directories
    alike, as the specification words its count: every entry of the root
    directory and, recursively, of each subdirectory whose name is not in
    [IGNORED_DIRS]; a subdirectory is itself an entry of the directory
    that holds it. *)
Fixpoint entries_encountered (n : node) : nat :=
  match n with
  | File _ => 0
  | Dir es =>
      (fix count (l : list (string * node)) : nat :=
         match l with
         | [] => 0
         | (d, sub) :: l' =>
             match sub with
             | File _ => 1
             | Dir _ =>
                 S (if str_in d IGNORED_DIRS then 0
                    else entries_encountered sub)
             end + count l'
         end) es
  end.

(** What [erase_ignored] does to one directory entry. *)
Definition erase_entry (e : string * node) : string * node :=
  (fst e, match snd e with
          | File _ => snd e
          | Dir _ => if str_in (fst e) IGNORED_DIRS then Dir []
                     else erase_ignored (snd e)
          end).

(** The two counters together. *)
Definition counted (st : state) : nat := processed_files st + skipped_files st.

(** The number of file names in a list of walk items. *)
Definition files_listed (items : list walk_item) : nat :=
  list_sum (map (fun item : walk_item => List.length (snd item)) items).

(** The leading slashes [normpath] puts back. *)
Definition root_of (k : nat) : string :=
  match k with
  | 0 => ""
  | 1 => "/"
  | _ => "//"
  end.

(** The self-reference guard lets [p] through. *)
Definition guarded (cwd abs_output_file p : string) : Prop :=
  abspath cwd p <> abs_output_file.

(** [st'] continues [st]: the output file, once open, the list of opened
    inputs and standard output are only appended to. *)
Definition extends (st st' : state) : Prop :=
  (forall t, outfile st = Some t -> exists x, outfile st' = Some (t ++ x))
  /\ (exists l, opened st' = (opened st ++ l)%list)
  /\ (exists l, stdout st' = (stdout st ++ l)%list).

(** ** A small tree to run the program on *)

Definition demo_tree : node :=
  Dir [ ("a.txt", File (ReadBytes "hello"));
        ("b.png", File (ReadBytes "xx"));
        ("build", File (ReadBytes "all:"));
        (".git", Dir [("config", File (ReadBytes "cfg"))]);
        ("src", Dir [ ("m.py", File (ReadBytes "x"));
                      ("bad", File (ReadOSError "denied"));
                      ("out.txt", File (ReadBytes "old")) ]) ].

Definition demo_world : world := mkWorld "/home/u" (Some demo_tree) None.

(** The directory [/tmp/x] once a run with [-o //tmp/x/out.txt] has
    created its output there: [out.txt], holding [bytes] when it is read,
    next to [a.txt]. *)
Definition alias_world (bytes : string) : world :=
  mkWorld "/home/u"
    (Some (Dir [ ("out.txt", File (ReadBytes bytes));
                 ("a.txt", File (ReadBytes "hello")) ]))
    None.

(** ** Notions used to describe a whole run *)

(** A file name in directory [dirpath] gets past the three filters of the
    loop body. *)
Definition is_candidate (cwd abs_output_file dirpath filename : string) : bool :=
  negb (str_in filename IGNORED_FILES)
  && negb (str_in (lower (snd (splitext filename))) IGNORED_EXTENSIONS)
  && negb (abspath cwd (join dirpath filename) =? abs_output_file).

(** The records one yielded directory contributes: relative path and
    text of every candidate whose read succeeds, in listing order. *)
Definition records_of_item (cwd abs_input_dir abs_output_file : string)
    (item : walk_item) : list (string * string) :=
  flat_map
    (fun f : string * read_outcome =>
       match snd f with
       | ReadBytes bytes =>
           if is_candidate cwd abs_output_file (fst (fst item)) (fst f)
           then [(relpath cwd (join (fst (fst item)) (fst f)) abs_input_dir,
                  read_text bytes)]
           else []
       | _ => []
       end)
    (snd item).

Definition records_of (cwd abs_input_dir abs_output_file : string)
    (items : list walk_item) : list (string * string) :=
  flat_map (records_of_item cwd abs_input_dir abs_output_file) items.

(** The text of one record and of a list of records. *)
Definition render_record (rec : string * string) : string :=
  start_marker (fst rec) ++ snd rec ++ end_marker (fst rec).

Definition render_records (recs : list (string * string)) : string :=
  String.concat "" (map render_record recs).

(** The three header lines and the blank line after them. *)
Definition header (abs_input_dir abs_output_file : string) : string :=
  ("# Combined content from directory: " ++ abs_input_dir ++ nl)
  ++ ("# Output file: " ++ abs_output_file ++ nl)
  ++ ("# --- START OF COMBINED CONTENT ---" ++ nl ++ nl).

Definition footer : string := "# --- END OF COMBINED CONTENT ---" ++ nl.

(** A state without its output text: what is left to compare between runs
    that write to different files. *)
Definition forget_output (st : state) : state :=
  mkState None (stdout st) (stderr st) (opened st)
          (processed_files st) (skipped_files st).

(** Every name in the tree is one a directory listing can return: not
    empty, not [.] or [..], without a separator. *)
Fixpoint clean_names (n : node) : bool :=
  match n with
  | File _ => true
  | Dir es =>
      forallb (fun e : string * node =>
                 let (name, sub) := e in clean_comp name && clean_names sub) es
  end.

(** Does [s] hold a character other than [c]? *)
Fixpoint has_other_char (c : ascii) (s : string) : bool :=
  match s with
  | EmptyString => false
  | String a r => negb (Ascii.eqb a c) || has_other_char c r
  end.

(** [st'] keeps the error reports and the skips of [st]: the diagnostic
    stream is only appended to and the skip counter never goes down. *)
Definition reports_kept (st st' : state) : Prop :=
  (exists l, stderr st' = (stderr st ++ l)%list)
  /\ skipped_files st <= skipped_files st'.

(** * Properties *)

(** ** Strings *)

Lemma append_assoc (a b c : string) : (a ++ b) ++ c = a ++ (b ++ c).
Proof. induction a as [|x a IH]; simpl; [reflexivity | now rewrite IH]. Qed.

Lemma append_nil_r (a : string) : a ++ "" = a.
Proof. induction a as [|x a IH]; simpl; [reflexivity | now rewrite IH]. Qed.

Lemma length_append (a b : string) : length (a ++ b) = length a + length b.
Proof. induction a as [|x a IH]; cbn [append length]; [reflexivity | now rewrite IH]. Qed.

(** ** Extensions and set membership *)

Lemma rfind_absent (c : ascii) (s : string) :
  has_char c s = false -> rfind s c = (-1)%Z.
Proof.
  induction s as [|a s IH]; simpl; [reflexivity|].
  intros H. apply orb_false_iff in H as [Ha Hs].
  rewrite (IH Hs), Ha. reflexivity.
Qed.

Lemma rfind_lower_bound (c : ascii) (s : string) : (-1 <= rfind s c)%Z.
Proof.
  induction s as [|a s IH]; simpl; [lia|].
  destruct (0 <=? rfind s c)%Z eqn:E; [apply Z.leb_le in E; lia|].
  destruct (Ascii.eqb a c); lia.
Qed.


Lemma str_in_In (x : string) (l : list string) :
  str_in x l = true <-> In x l.
Proof.
  unfold str_in. rewrite existsb_exists. split.
  - intros (y & Hy & E). apply String.eqb_eq in E. now subst.
  - intros H. exists x. split; [assumption | apply String.eqb_refl].
Qed.


(** ** The permissive decoder *)

Ltac split_decoder :=
  repeat match goal with
         | |- context [if ?c then _ else _] =>
             let E := fresh "E" in destruct c eqn:E
         | |- context [match ?r with EmptyString => _ | String _ _ => _ end] =>
             is_var r; destruct r
         end.

Ltac use_tests :=
  repeat match goal with
         | E : ?c = _ |- context [?c] => rewrite E
         end.

(** Whatever the bytes, what the decoder returns is well-formed UTF-8. *)
Lemma decode_utf8_ignore_valid_bounded (n : nat) :
  forall s, length s <= n -> utf8_valid (decode_utf8_ignore s) = true.
Proof.
  induction n as [|n IH]; intros s Hlen.
  - destruct s; [reflexivity | simpl in Hlen; lia].
  - destruct s as [|b0 r0]; [reflexivity|].
    cbn [decode_utf8_ignore]. split_decoder;
      try reflexivity;
      try (apply IH; simpl in *; lia);
      cbn [utf8_valid]; use_tests; cbn [andb];
      apply IH; simpl in *; lia.
Qed.

Lemma decode_utf8_ignore_valid (s : string) :
  utf8_valid (decode_utf8_ignore s) = true.
Proof. apply (decode_utf8_ignore_valid_bounded (length s)). lia. Qed.

(** Well-formed UTF-8 goes through the decoder unchanged. *)
Lemma decode_utf8_ignore_id_bounded (n : nat) :
  forall s, length s <= n -> utf8_valid s = true -> decode_utf8_ignore s = s.
Proof.
  induction n as [|n IH]; intros s Hlen.
  - destruct s; [reflexivity | simpl in Hlen; lia].
  - destruct s as [|b0 r0]; [reflexivity|].
    cbn [decode_utf8_ignore utf8_valid]. split_decoder; intros Hv;
      try discriminate; cbn [andb] in Hv; try discriminate;
      repeat f_equal; apply IH; solve [simpl in *; lia | assumption].
Qed.

Lemma decode_utf8_ignore_id (s : string) :
  utf8_valid s = true -> decode_utf8_ignore s = s.
Proof. apply (decode_utf8_ignore_id_bounded (length s)). lia. Qed.

(** The decoder only drops bytes. *)
Lemma decode_utf8_ignore_length_bounded (n : nat) :
  forall s, length s <= n -> length (decode_utf8_ignore s) <= length s.
Proof.
  induction n as [|n IH]; intros s Hlen.
  - destruct s; [simpl; lia | simpl in Hlen; lia].
  - destruct s as [|b0 r0]; [simpl; lia|].
    cbn [decode_utf8_ignore]. split_decoder; cbn [length];
      try lia;
      match goal with
      | |- context [decode_utf8_ignore ?r] =>
          pose proof (IH r ltac:(simpl in *; lia)); simpl in *; lia
      end.
Qed.

Lemma universal_newlines_id (s : string) :
  has_char CR s = false -> universal_newlines s = s.
Proof.
  induction s as [|c s IH]; [reflexivity|].
  cbn [has_char universal_newlines]. intros H.
  apply orb_false_iff in H as [Hc Hs]. now rewrite Hc, (IH Hs).
Qed.

(** A file of well-formed UTF-8 without carriage returns is read as it is. *)
Lemma read_text_id (bytes : string) :
  utf8_valid bytes = true -> has_char CR bytes = false ->
  read_text bytes = bytes.
Proof.
  intros Hv Hcr. unfold read_text.
  rewrite (decode_utf8_ignore_id _ Hv). now apply universal_newlines_id.
Qed.


(** ** The filters applied to one file *)

Section PerFile.

Variables cwd abs_input_dir abs_output_file dirpath : string.

(** A file that passes the three filters is handed to the read/write
    block with its joined path and its path relative to the root. *)
Lemma process_file_candidate (filename : string) (r : read_outcome) (st : state) :
  str_in filename IGNORED_FILES = false ->
  str_in (lower (snd (splitext filename))) IGNORED_EXTENSIONS = false ->
  abspath cwd (join dirpath filename) <> abs_output_file ->
  process_file cwd abs_input_dir abs_output_file dirpath (filename, r) st
  = read_and_write (join dirpath filename)
      (relpath cwd (join dirpath filename) abs_input_dir) r st.
Proof.
  intros Hname Hext Hout. unfold process_file.
  rewrite Hname, Hext.
  apply String.eqb_neq in Hout. now rewrite Hout.
Qed.

(** What the read/write block leaves behind, field by field.  A read that
    succeeds announces the file, appends its record and counts it as
    processed; a read that raises reports it and counts it as skipped; in
    every case the path has been handed to [open]. *)
Lemma read_and_write_state (file_path relative_path : string)
    (r : read_outcome) (st : state) :
  read_and_write file_path relative_path r st
  = match r with
    | ReadBytes bytes =>
        mkState
          (match outfile st with
           | Some t => Some (t ++ start_marker relative_path ++ read_text bytes
                             ++ end_marker relative_path)
           | None => None
           end)
          (stdout st ++ ["Processing: " ++ relative_path])
          (stderr st) (opened st ++ [file_path])
          (S (processed_files st)) (skipped_files st)
    | ReadOSError e =>
        mkState (outfile st) (stdout st)
          (stderr st ++ ["Error reading file " ++ file_path ++ ": " ++ e])
          (opened st ++ [file_path])
          (processed_files st) (S (skipped_files st))
    | ReadException e =>
        mkState (outfile st) (stdout st)
          (stderr st
           ++ ["Unexpected error processing file " ++ file_path ++ ": " ++ e])
          (opened st ++ [file_path])
          (processed_files st) (S (skipped_files st))
    end.
Proof.
  destruct r as [bytes | e | e]; [|reflexivity | reflexivity].
  unfold read_and_write, incr_processed, write, print, open_input.
  cbn [outfile stdout stderr opened processed_files skipped_files].
  f_equal. destruct (outfile st); [|reflexivity].
  now rewrite !append_assoc.
Qed.


(** C3, as the code has it: a candidate whose read succeeds appends
    exactly one record to the output file: the start-marker line with the
    relative path, the content as the text-mode read returned it (UTF-8
    decoded with undecodable bytes left out and every line ending turned
    into a line feed), the end-marker line with the same relative path
    and a blank line; the processed counter goes up by one and nothing is
    skipped or reported.  For a file of well-formed UTF-8 without
    carriage returns the content written is the file, byte for byte. *)
Theorem record_of_candidate (filename bytes text : string) (st : state) :
  str_in filename IGNORED_FILES = false ->
  str_in (lower (snd (splitext filename))) IGNORED_EXTENSIONS = false ->
  abspath cwd (join dirpath filename) <> abs_output_file ->
  outfile st = Some text ->
  let relative_path := relpath cwd (join dirpath filename) abs_input_dir in
  let content := read_text bytes in
  let st' := process_file cwd abs_input_dir abs_output_file dirpath
               (filename, ReadBytes bytes) st in
  outfile st'
  = Some (text
          ++ ("--- START FILE: " ++ relative_path ++ " ---" ++ nl)
          ++ content
          ++ (nl ++ "--- END FILE: " ++ relative_path ++ " ---" ++ nl ++ nl))
  /\ processed_files st' = S (processed_files st)
  /\ skipped_files st' = skipped_files st
  /\ stderr st' = stderr st
  /\ (utf8_valid bytes = true -> has_char CR bytes = false -> content = bytes).
Proof.
  intros Hname Hext Hout Htext. cbv zeta.
  rewrite process_file_candidate by assumption.
  unfold read_and_write, write, print, incr_processed, open_input; simpl.
  rewrite Htext. unfold start_marker, end_marker.
  repeat split; [|apply read_text_id].
  f_equal. now rewrite !append_assoc.
Qed.

End PerFile.

(** ** Names that read like an extension *)



(** ** Exit status *)

(** C6: when the input path is missing or names something that is not a
    directory, the exit status is 1, the error goes to the diagnostic
    stream, no output file is opened and nothing is walked or read; in
    every other run the exit status is 0, also when the output file cannot
    be opened and whatever was skipped. *)
Theorem exit_status (w : world) (input_dir output : string) :
  ((input_node w = None \/ exists r, input_node w = Some (File r)) ->
   fst (main w input_dir output) = 1%Z
   /\ outfile (snd (main w input_dir output)) = None
   /\ opened (snd (main w input_dir output)) = []
   /\ stdout (snd (main w input_dir output)) = []
   /\ processed_files (snd (main w input_dir output)) = 0
   /\ skipped_files (snd (main w input_dir output)) = 0
   /\ stderr (snd (main w input_dir output))
      = ["Error: Input directory '" ++ input_dir
         ++ "' not found or is not a directory."])
  /\ ((exists es, input_node w = Some (Dir es)) ->
      fst (main w input_dir output) = 0%Z).
Proof.
  unfold main, isdir. split.
  - intros [H | (r & H)]; rewrite H; simpl; repeat split.
  - intros (es & H). rewrite H. reflexivity.
Qed.

(** ** The walk *)

(** Induction on a tree, with the hypothesis available for every entry of
    a directory. *)
Lemma node_induction (P : node -> Prop) :
  (forall r, P (File r)) ->
  (forall es, Forall (fun e => P (snd e)) es -> P (Dir es)) ->
  forall n, P n.
Proof.
  intros HF HD. fix IH 1. intros [r | es]; [apply HF | apply HD].
  induction es as [| [d sub] l IHl]; constructor; [apply IH | exact IHl].
Qed.

(** The generator, one directory at a time. *)
Lemma os_walk_Dir (prune : list string -> list string) (top : string)
    (es : list (string * node)) :
  os_walk prune top (Dir es)
  = (top, dirnames es, filenames es)
    :: flat_map (fun e : string * node =>
                   if str_in (fst e) (prune (dirnames es))
                   then os_walk prune (join top (fst e)) (snd e) else [])
                es.
Proof.
  cbn [os_walk]. f_equal.
  generalize (prune (dirnames es)) as dirs. intros dirs.
  induction es as [| [d sub] l IHl]; [reflexivity|].
  cbn [flat_map fst snd]. now rewrite <- IHl.
Qed.

Lemma str_in_filter (p : string -> bool) (x : string) (l : list string) :
  str_in x (filter p l) = p x && str_in x l.
Proof.
  induction l as [|y l IH]; simpl.
  - now rewrite andb_false_r.
  - destruct (p y) eqn:Hy; simpl; rewrite IH.
    + destruct (String.eqb_spec x y) as [-> | Hxy]; simpl.
      * rewrite Hy. reflexivity.
      * reflexivity.
    + destruct (String.eqb_spec x y) as [-> | Hxy]; simpl.
      * rewrite Hy. reflexivity.
      * reflexivity.
Qed.

Lemma str_in_dirnames (d : string) (sub : list (string * node))
    (es : list (string * node)) :
  In (d, Dir sub) es -> str_in d (dirnames es) = true.
Proof.
  intros H. apply str_in_In.
  induction es as [| [d' [r | sub']] l IHl]; simpl in *.
  - contradiction.
  - destruct H as [H | H]; [discriminate | auto].
  - destruct H as [H | H]; [left; congruence | auto].
Qed.

(** A subdirectory is walked exactly when its name is not ignored. *)
Lemma subdir_is_walked (d : string) (sub : list (string * node))
    (es : list (string * node)) :
  In (d, Dir sub) es ->
  str_in d (prune_dirs (dirnames es)) = negb (str_in d IGNORED_DIRS).
Proof.
  intros H. unfold prune_dirs. rewrite str_in_filter.
  rewrite (str_in_dirnames _ _ _ H). apply andb_true_r.
Qed.

Lemma ignored_is_pruned (d : string) (l : list string) :
  str_in d IGNORED_DIRS = true -> str_in d (prune_dirs l) = false.
Proof.
  intros H. unfold prune_dirs. rewrite str_in_filter, H. reflexivity.
Qed.

(** ** Ignored subdirectories *)

Lemma erase_ignored_Dir (es : list (string * node)) :
  erase_ignored (Dir es) = Dir (map erase_entry es).
Proof.
  cbn [erase_ignored]. f_equal. apply map_ext. now intros [d sub].
Qed.

Lemma erase_entry_Dir (d : string) (sub : list (string * node)) :
  exists sub', erase_entry (d, Dir sub) = (d, Dir sub').
Proof.
  unfold erase_entry; cbn [fst snd].
  destruct (str_in d IGNORED_DIRS); [now exists [] |].
  rewrite erase_ignored_Dir. eauto.
Qed.

Lemma dirnames_erase (es : list (string * node)) :
  dirnames (map erase_entry es) = dirnames es.
Proof.
  induction es as [| [d [r | sub]] l IHl]; [reflexivity | exact IHl |].
  cbn [map]. destruct (erase_entry_Dir d sub) as (sub' & ->).
  cbn [dirnames]. now rewrite IHl.
Qed.

Lemma filenames_erase (es : list (string * node)) :
  filenames (map erase_entry es) = filenames es.
Proof.
  induction es as [| [d [r | sub]] l IHl]; [reflexivity | |].
  - cbn [map]. unfold erase_entry at 1. cbn [fst snd filenames]. now rewrite IHl.
  - cbn [map]. destruct (erase_entry_Dir d sub) as (sub' & ->).
    cbn [filenames]. exact IHl.
Qed.

(** The walk does not depend on what lies inside ignored subdirectories. *)
Lemma os_walk_erase_ignored (n : node) :
  forall top,
    os_walk prune_dirs top (erase_ignored n) = os_walk prune_dirs top n.
Proof.
  induction n as [r | es IH] using node_induction; intros top; [reflexivity|].
  rewrite erase_ignored_Dir, !os_walk_Dir.
  rewrite dirnames_erase, filenames_erase. f_equal.
  generalize (dirnames es) as names. intros names.
  induction es as [| [d sub] l IHl]; [reflexivity|].
  inversion IH as [| ? ? Hsub Hl]; subst.
  cbn [map flat_map]. rewrite (IHl Hl). f_equal.
  unfold erase_entry; cbn [fst snd] in *.
  destruct sub as [r | sub]; [reflexivity|].
  destruct (str_in d IGNORED_DIRS) eqn:Hd.
  - now rewrite (ignored_is_pruned _ _ Hd).
  - destruct (str_in d (prune_dirs names)); [apply Hsub | reflexivity].
Qed.

(** C1: the run on a tree is the run on the same tree with every ignored
    subdirectory emptied, at every depth: exit status, output file, both
    streams, the files opened and both counters are the same.  So nothing
    beneath an ignored subdirectory is read, counted or written, whatever
    it is and whatever the other filters would say about it. *)
Theorem ignored_subtrees_are_never_visited (cwd : string)
    (output_error : option string) (n : node) (input_dir output : string) :
  main (mkWorld cwd (Some n) output_error) input_dir output
  = main (mkWorld cwd (Some (erase_ignored n)) output_error) input_dir output.
Proof.
  unfold main, isdir, combine_files, walk_of; cbn [input_node getcwd].
  rewrite os_walk_erase_ignored.
  destruct n as [r | es]; reflexivity.
Qed.

(** ** Counters *)

(** Every file name the loop body sees is counted once, as processed or
    as skipped. *)
Lemma process_file_counts_one (cwd abs_input_dir abs_output_file dirpath : string)
    (f : string * read_outcome) (st : state) :
  counted (process_file cwd abs_input_dir abs_output_file dirpath f st)
  = S (counted st).
Proof.
  destruct f as [filename r]. unfold process_file, counted.
  destruct (str_in filename IGNORED_FILES); [simpl; lia|].
  destruct (str_in _ IGNORED_EXTENSIONS); [simpl; lia|].
  destruct (_ =? abs_output_file); [simpl; lia|].
  destruct r; simpl; lia.
Qed.

Lemma process_dir_counts (cwd abs_input_dir abs_output_file : string)
    (item : walk_item) (st : state) :
  counted (process_dir cwd abs_input_dir abs_output_file st item)
  = counted st + List.length (snd item).
Proof.
  destruct item as [[dirpath ds] fs]. unfold process_dir. cbn [snd].
  revert st. induction fs as [|f fs IH]; intros st; cbn [fold_left List.length].
  - lia.
  - rewrite IH, process_file_counts_one. lia.
Qed.

Lemma walk_counts (cwd abs_input_dir abs_output_file : string)
    (items : list walk_item) (st : state) :
  counted (fold_left (process_dir cwd abs_input_dir abs_output_file) items st)
  = counted st + files_listed items.
Proof.
  revert st. induction items as [|item items IH]; intros st; cbn [fold_left].
  - unfold files_listed. simpl. lia.
  - rewrite IH, process_dir_counts. unfold files_listed. simpl. lia.
Qed.

Lemma files_listed_app (a b : list walk_item) :
  files_listed (a ++ b) = files_listed a + files_listed b.
Proof. unfold files_listed. now rewrite map_app, list_sum_app. Qed.

Lemma files_listed_cons (item : walk_item) (items : list walk_item) :
  files_listed (item :: items) = List.length (snd item) + files_listed items.
Proof. reflexivity. Qed.

(** The files listed by the generator are the files of the tree outside
    ignored subdirectories. *)
Lemma files_listed_os_walk (n : node) :
  forall top, files_listed (os_walk prune_dirs top n) = files_encountered n.
Proof.
  induction n as [r | es IH] using node_induction; intros top; [reflexivity|].
  rewrite os_walk_Dir, files_listed_cons. cbn [snd files_encountered].
  assert (Hsub : forall d sub, In (d, Dir sub) es ->
            str_in d (prune_dirs (dirnames es)) = negb (str_in d IGNORED_DIRS))
    by (intros d sub H; exact (subdir_is_walked d sub es H)).
  revert Hsub. generalize (prune_dirs (dirnames es)) as dirs. intros dirs Hsub.
  induction es as [| [d sub] l IHl]; [reflexivity|].
  inversion IH as [| ? ? Hd Hl]; subst. cbn [snd] in Hd.
  cbn [flat_map fst snd]. rewrite files_listed_app.
  specialize (IHl Hl (fun d' s' H => Hsub d' s' (or_intror H))).
  destruct sub as [r | sub].
  - cbn [filenames List.length]. replace (files_listed _) with 0.
    + lia.
    + destruct (str_in d dirs); reflexivity.
  - cbn [filenames]. rewrite (Hsub d sub (or_introl eq_refl)).
    destruct (str_in d IGNORED_DIRS); cbn [negb].
    + change (files_listed []) with 0. lia.
    + rewrite Hd. lia.
Qed.

Lemma combine_files_counts (w : world) (input_dir output_file : string)
    (st : state) :
  output_error w = None ->
  counted (combine_files w input_dir output_file st)
  = counted st + files_listed (walk_of w (abspath (getcwd w) input_dir)).
Proof.
  intros Hopen. unfold combine_files. rewrite Hopen.
  set (body := fold_left _ _ _).
  assert (Hbody : counted body = counted st
                  + files_listed (walk_of w (abspath (getcwd w) input_dir))).
  { unfold body. now rewrite walk_counts. }
  destruct (0 <? skipped_files _)%nat; exact Hbody.
Qed.

(** C7, as the code has it: when a run completes (the input is a
    directory and the output file opens), [processed_files +
    skipped_files] is the number of files the walk came across: the
    non-directory entries of the root and of every subdirectory reached
    without passing an ignored name.  Directories are walked, not
    counted, and nothing inside a pruned subdirectory is counted. *)
Theorem counters_cover_encountered_files (w : world)
    (input_dir output : string) (es : list (string * node)) :
  input_node w = Some (Dir es) ->
  output_error w = None ->
  let st := snd (main w input_dir output) in
  processed_files st + skipped_files st = files_encountered (Dir es).
Proof.
  intros Hin Hout. cbv zeta. unfold main, isdir. rewrite Hin. cbn [negb snd].
  change (counted (combine_files w input_dir output initial_state)
          = files_encountered (Dir es)).
  rewrite combine_files_counts by assumption.
  unfold walk_of. rewrite Hin, files_listed_os_walk. reflexivity.
Qed.

(** ** Normal forms of absolute paths *)

Lemma split_no_sep (sep : ascii) (s : string) :
  Forall (fun c => has_char sep c = false) (split sep s).
Proof.
  induction s as [|a s IH]; simpl.
  - now constructor.
  - destruct (Ascii.eqb a sep) eqn:Ea.
    + now constructor.
    + destruct (split sep s) as [|h t].
      * constructor; [simpl; now rewrite Ea | constructor].
      * inversion IH; subst. constructor; [simpl; now rewrite Ea | assumption].
Qed.

Lemma split_app_sep (sep : ascii) (a b : string) :
  has_char sep a = false ->
  split sep (a ++ String sep b) = a :: split sep b.
Proof.
  induction a as [|x a IH]; simpl; intros H.
  - now rewrite Ascii.eqb_refl.
  - apply orb_false_iff in H as [Hx Ha]. now rewrite Hx, (IH Ha).
Qed.

Lemma split_single (sep : ascii) (a : string) :
  has_char sep a = false -> split sep a = [a].
Proof.
  induction a as [|x a IH]; simpl; intros H; [reflexivity|].
  apply orb_false_iff in H as [Hx Ha]. now rewrite Hx, (IH Ha).
Qed.

Lemma split_concat (l : list string) :
  l <> [] ->
  Forall (fun c => has_char slash c = false) l ->
  split slash (String.concat "/" l) = l.
Proof.
  induction l as [|c l IH]; intros Hne Hl; [congruence|].
  inversion Hl as [| ? ? Hc Hl']; subst.
  destruct l as [|c' l'].
  - simpl. now apply split_single.
  - cbn [String.concat]. change ("/" ++ ?x) with (String slash x).
    rewrite split_app_sep by assumption.
    f_equal. apply IH; [discriminate | assumption].
Qed.

Lemma clean_comp_spec (c : string) :
  clean_comp c = true ->
  c <> "" /\ c <> "." /\ c <> ".." /\ has_char slash c = false.
Proof.
  unfold clean_comp. rewrite !andb_true_iff, !negb_true_iff.
  intros [[[H1 H2] H3] H4].
  repeat split; try (now apply String.eqb_neq); assumption.
Qed.

Lemma clean_last (acc : list string) :
  Forall (fun c => clean_comp c = true) acc ->
  (last acc "" =? "..") = false.
Proof.
  induction acc as [|c acc IH]; intros H; [reflexivity|].
  inversion H as [| ? ? Hc Hacc]; subst.
  destruct acc as [|c' acc'].
  - simpl. apply String.eqb_neq. now apply clean_comp_spec in Hc.
  - change (last (c :: c' :: acc') "") with (last (c' :: acc') "").
    now apply IH.
Qed.

Lemma Forall_removelast {A : Type} (P : A -> Prop) (l : list A) :
  Forall P l -> Forall P (removelast l).
Proof.
  induction l as [|x l IH]; intros H; [constructor|].
  inversion H; subst. destruct l as [|y l']; [constructor|].
  change (removelast (x :: y :: l')) with (x :: removelast (y :: l')).
  constructor; auto.
Qed.

Lemma normpath_step_clean (k : nat) (acc : list string) (comp : string) :
  k <> 0 ->
  Forall (fun c => clean_comp c = true) acc ->
  has_char slash comp = false ->
  Forall (fun c => clean_comp c = true) (normpath_step k acc comp).
Proof.
  intros Hk Hacc Hcomp. unfold normpath_step.
  destruct (comp =? "") eqn:E1; [assumption|].
  destruct (comp =? ".") eqn:E2; [assumption|]. cbn [orb].
  destruct (comp =? "..") eqn:E3; cbn [negb orb].
  - rewrite (clean_last _ Hacc), andb_false_r, orb_false_r.
    destruct k; [congruence|]. cbn [Nat.eqb andb].
    now apply Forall_removelast.
  - apply Forall_app. split; [assumption|].
    constructor; [|constructor].
    unfold clean_comp. now rewrite E1, E2, E3, Hcomp.
Qed.

Lemma normpath_fold_clean (k : nat) (l acc : list string) :
  k <> 0 ->
  Forall (fun c => has_char slash c = false) l ->
  Forall (fun c => clean_comp c = true) acc ->
  Forall (fun c => clean_comp c = true) (fold_left (normpath_step k) l acc).
Proof.
  intros Hk. revert acc.
  induction l as [|c l IH]; intros acc Hl Hacc; [assumption|].
  inversion Hl; subst. cbn [fold_left].
  apply IH; [assumption|]. now apply normpath_step_clean.
Qed.

Lemma normpath_fold_on_clean (k : nat) (l acc : list string) :
  Forall (fun c => clean_comp c = true) l ->
  fold_left (normpath_step k) l acc = (acc ++ l)%list.
Proof.
  revert acc. induction l as [|c l IH]; intros acc Hl.
  - now rewrite app_nil_r.
  - inversion Hl as [| ? ? Hc Hl']; subst. cbn [fold_left].
    rewrite (IH _ Hl').
    apply clean_comp_spec in Hc as (H1 & H2 & H3 & _).
    unfold normpath_step.
    apply String.eqb_neq in H1, H2, H3. rewrite H1, H2, H3. cbn [orb negb].
    now rewrite <- app_assoc.
Qed.

Lemma initial_slashes_range (p : string) :
  startswith p "/" = true ->
  initial_slashes_of p = 1 \/ initial_slashes_of p = 2.
Proof.
  intros H. unfold initial_slashes_of. rewrite H.
  destruct (_ && _); auto.
Qed.

(** [normpath] sends an absolute path to one or two slashes followed by
    clean components joined by single slashes. *)
Lemma normpath_absolute (p : string) :
  startswith p "/" = true ->
  exists k comps,
    (k = 1 \/ k = 2)
    /\ Forall (fun c => clean_comp c = true) comps
    /\ normpath p = root_of k ++ String.concat "/" comps.
Proof.
  intros Habs.
  exists (initial_slashes_of p),
         (fold_left (normpath_step (initial_slashes_of p)) (split slash p) []).
  pose proof (initial_slashes_range p Habs) as Hk.
  split; [exact Hk|]. split.
  - apply normpath_fold_clean; [lia | apply split_no_sep | constructor].
  - unfold normpath.
    destruct p as [|a p]; [discriminate|]. cbn [String.eqb].
    destruct Hk as [-> | ->]; reflexivity.
Qed.

Lemma startswith_nil (s : string) : startswith s "" = true.
Proof. now destruct s. Qed.

Lemma startswith_cons (x y : ascii) (r p : string) :
  startswith (String x r) (String y p) = Ascii.eqb x y && startswith r p.
Proof.
  unfold startswith. cbn [prefix].
  destruct (ascii_dec y x) as [<- | E].
  - now rewrite Ascii.eqb_refl.
  - assert (Ascii.eqb x y = false) as -> by (apply Ascii.eqb_neq; congruence).
    reflexivity.
Qed.

Lemma startswith_empty (p : string) (y : ascii) :
  startswith "" (String y p) = false.
Proof. reflexivity. Qed.

Lemma concat_clean_head (comps : list string) :
  Forall (fun c => clean_comp c = true) comps ->
  startswith (String.concat "/" comps) "/" = false.
Proof.
  intros H. destruct comps as [|c l]; [reflexivity|].
  inversion H as [| ? ? Hc _]; subst.
  apply clean_comp_spec in Hc as (Hne & _ & _ & Hs).
  destruct c as [|x c]; [congruence|].
  simpl in Hs. apply orb_false_iff in Hs as [Hx _].
  assert (Hhead : forall rest, startswith (String x rest) "/" = false).
  { intros rest. rewrite startswith_cons. fold slash. now rewrite Hx. }
  destruct l; cbn [String.concat]; apply Hhead.
Qed.

Lemma initial_slashes_normal (k : nat) (comps : list string) :
  k = 1 \/ k = 2 ->
  Forall (fun c => clean_comp c = true) comps ->
  initial_slashes_of (root_of k ++ String.concat "/" comps) = k.
Proof.
  intros Hk Hc. pose proof (concat_clean_head comps Hc) as Hh.
  destruct Hk as [-> | ->]; unfold initial_slashes_of; cbn [root_of append].
  - rewrite !startswith_cons, ?startswith_nil, ?Hh. reflexivity.
  - rewrite !startswith_cons, ?startswith_nil, ?Hh. reflexivity.
Qed.

Lemma normpath_fold_normal (k : nat) (comps : list string) :
  k = 1 \/ k = 2 ->
  Forall (fun c => clean_comp c = true) comps ->
  fold_left (normpath_step k)
            (split slash (root_of k ++ String.concat "/" comps)) []
  = comps.
Proof.
  intros Hk Hc.
  assert (Hbody : fold_left (normpath_step k)
                            (split slash (String.concat "/" comps)) [] = comps).
  { destruct comps as [|c l]; [reflexivity|].
    rewrite split_concat; [now rewrite normpath_fold_on_clean | discriminate |].
    eapply Forall_impl; [|exact Hc].
    intros a Ha. now apply clean_comp_spec in Ha. }
  destruct Hk as [-> | ->]; simpl; exact Hbody.
Qed.

Lemma normpath_normal (k : nat) (comps : list string) :
  k = 1 \/ k = 2 ->
  Forall (fun c => clean_comp c = true) comps ->
  normpath (root_of k ++ String.concat "/" comps)
  = root_of k ++ String.concat "/" comps.
Proof.
  intros Hk Hc. unfold normpath.
  rewrite (initial_slashes_normal k comps Hk Hc).
  rewrite (normpath_fold_normal k comps Hk Hc).
  destruct Hk as [-> | ->]; reflexivity.
Qed.

(** [normpath] is idempotent on absolute paths. *)
Lemma normpath_idempotent (p : string) :
  startswith p "/" = true -> normpath (normpath p) = normpath p.
Proof.
  intros Habs.
  destruct (normpath_absolute p Habs) as (k & comps & Hk & Hc & ->).
  now apply normpath_normal.
Qed.

Lemma startswith_append (a b : string) :
  startswith a "/" = true -> startswith (a ++ b) "/" = true.
Proof.
  destruct a as [|x a]; [discriminate|]. cbn [append].
  now rewrite !startswith_cons, !startswith_nil.
Qed.

Lemma abspath_argument_absolute (cwd path : string) :
  startswith cwd "/" = true ->
  startswith (if startswith path "/" then path else join cwd path) "/" = true.
Proof.
  intros Hcwd. destruct (startswith path "/") eqn:Hp; [exact Hp|].
  unfold join. rewrite Hp.
  destruct (_ || _); now apply startswith_append.
Qed.

Lemma abspath_absolute (cwd path : string) :
  startswith cwd "/" = true -> startswith (abspath cwd path) "/" = true.
Proof.
  intros Hcwd. unfold abspath.
  destruct (normpath_absolute _ (abspath_argument_absolute cwd path Hcwd))
    as (k & comps & Hk & _ & ->).
  destruct Hk as [-> | ->]; cbn [root_of append];
    now rewrite startswith_cons, startswith_nil.
Qed.

(** An absolute path is its own absolute path once normalised:
    [abspath(abspath(p)) == abspath(p)]. *)
Lemma abspath_idempotent (cwd path : string) :
  startswith cwd "/" = true ->
  abspath cwd (abspath cwd path) = abspath cwd path.
Proof.
  intros Hcwd. unfold abspath at 1.
  rewrite (abspath_absolute cwd path Hcwd).
  unfold abspath. apply normpath_idempotent.
  now apply abspath_argument_absolute.
Qed.

(** No path the loop hands to [relpath] is empty. *)
Lemma normpath_nonempty (p : string) : normpath p <> "".
Proof.
  unfold normpath. destruct (p =? ""); [discriminate|].
  match goal with |- (if ?c then _ else _) <> _ => destruct c eqn:E end;
    [discriminate | now apply String.eqb_neq].
Qed.

Lemma join_nonempty (a b : string) : a <> "" -> join a b <> "".
Proof.
  intros Ha. unfold join.
  destruct (startswith b "/") eqn:Hb.
  - destruct b; [discriminate Hb | discriminate].
  - destruct a as [|x a]; [congruence|].
    destruct (_ || _); discriminate.
Qed.

Lemma os_walk_dirpaths_nonempty (prune : list string -> list string) (n : node) :
  forall top, top <> "" ->
    Forall (fun item : walk_item => fst (fst item) <> "") (os_walk prune top n).
Proof.
  induction n as [r | es IH] using node_induction; intros top Htop;
    [constructor|].
  rewrite os_walk_Dir. constructor; [exact Htop|].
  generalize (prune (dirnames es)) as dirs. intros dirs.
  induction es as [| [d sub] l IHl]; [constructor|].
  inversion IH as [| ? ? Hsub Hl]; subst.
  cbn [flat_map fst snd]. apply Forall_app. split; [|now apply IHl].
  destruct (str_in d dirs); [|constructor].
  apply Hsub. now apply join_nonempty.
Qed.

(** ** What a run leaves behind only grows *)

Lemma extends_refl (st : state) : extends st st.
Proof.
  repeat split.
  - intros t H. exists "". now rewrite append_nil_r.
  - exists []. now rewrite app_nil_r.
  - exists []. now rewrite app_nil_r.
Qed.

Lemma extends_trans (a b c : state) : extends a b -> extends b c -> extends a c.
Proof.
  intros (Ho1 & (l1 & Hp1) & (m1 & Hs1)) (Ho2 & (l2 & Hp2) & (m2 & Hs2)).
  repeat split.
  - intros t Ht. destruct (Ho1 t Ht) as (x & Hx).
    destruct (Ho2 _ Hx) as (y & Hy). exists (x ++ y).
    now rewrite Hy, append_assoc.
  - exists (l1 ++ l2)%list. now rewrite Hp2, Hp1, app_assoc.
  - exists (m1 ++ m2)%list. now rewrite Hs2, Hs1, app_assoc.
Qed.

Lemma extends_print (line : string) (st : state) : extends st (print line st).
Proof.
  repeat split; simpl.
  - intros t H. exists "". now rewrite append_nil_r.
  - exists []. now rewrite app_nil_r.
  - now exists [line].
Qed.

Lemma extends_write (text : string) (st : state) : extends st (write text st).
Proof.
  repeat split; simpl.
  - intros t H. rewrite H. now exists text.
  - exists []. now rewrite app_nil_r.
  - exists []. now rewrite app_nil_r.
Qed.

Lemma extends_same (st st' : state) :
  outfile st' = outfile st -> opened st' = opened st -> stdout st' = stdout st ->
  extends st st'.
Proof.
  intros Ho Hp Hs. repeat split.
  - intros t H. exists "". now rewrite append_nil_r, Ho.
  - exists []. now rewrite app_nil_r.
  - exists []. now rewrite app_nil_r.
Qed.

Lemma extends_open_input (p : string) (st : state) : extends st (open_input p st).
Proof.
  repeat split; simpl.
  - intros t H. exists "". now rewrite append_nil_r.
  - now exists [p].
  - exists []. now rewrite app_nil_r.
Qed.

Lemma read_and_write_extends (file_path relative_path : string)
    (r : read_outcome) (st : state) :
  extends st (read_and_write file_path relative_path r st).
Proof.
  unfold read_and_write.
  eapply extends_trans; [apply extends_open_input|].
  destruct r.
  - eapply extends_trans; [apply extends_print|].
    eapply extends_trans; [apply extends_write|].
    eapply extends_trans; [apply extends_write|].
    eapply extends_trans; [apply extends_write|].
    now apply extends_same.
  - now apply extends_same.
  - now apply extends_same.
Qed.

Lemma process_file_extends (cwd abs_input_dir abs_output_file dirpath : string)
    (f : string * read_outcome) (st : state) :
  extends st (process_file cwd abs_input_dir abs_output_file dirpath f st).
Proof.
  destruct f as [filename r]. unfold process_file.
  destruct (str_in filename IGNORED_FILES).
  { eapply extends_trans; [apply extends_print | now apply extends_same]. }
  destruct (str_in _ IGNORED_EXTENSIONS).
  { eapply extends_trans; [apply extends_print | now apply extends_same]. }
  destruct (_ =? abs_output_file).
  { eapply extends_trans; [apply extends_print | now apply extends_same]. }
  apply read_and_write_extends.
Qed.

Lemma process_files_extends (cwd abs_input_dir abs_output_file dirpath : string)
    (fs : list (string * read_outcome)) (st : state) :
  extends st
    (fold_left
       (fun s f => process_file cwd abs_input_dir abs_output_file dirpath f s)
       fs st).
Proof.
  revert st. induction fs as [|f fs IH]; intros st; cbn [fold_left].
  - apply extends_refl.
  - eapply extends_trans; [apply process_file_extends | apply IH].
Qed.

Lemma process_dir_extends (cwd abs_input_dir abs_output_file : string)
    (item : walk_item) (st : state) :
  extends st (process_dir cwd abs_input_dir abs_output_file st item).
Proof.
  destruct item as [[dirpath ds] fs]. apply process_files_extends.
Qed.

Lemma walk_extends (cwd abs_input_dir abs_output_file : string)
    (items : list walk_item) (st : state) :
  extends st
    (fold_left (process_dir cwd abs_input_dir abs_output_file) items st).
Proof.
  revert st. induction items as [|item items IH]; intros st; cbn [fold_left].
  - apply extends_refl.
  - eapply extends_trans; [apply process_dir_extends | apply IH].
Qed.

(** Every file of every directory the walk yields gets its turn in the
    loop body, in a state that continues the initial one and that the
    final state continues. *)
Lemma every_listed_file_is_stepped (cwd abs_input_dir abs_output_file : string)
    (items : list walk_item) (st0 : state)
    (dirpath : string) (ds : list string) (fs : list (string * read_outcome))
    (f : string * read_outcome) :
  In (dirpath, ds, fs) items ->
  In f fs ->
  exists st1,
    extends st0 st1
    /\ extends (process_file cwd abs_input_dir abs_output_file dirpath f st1)
         (fold_left (process_dir cwd abs_input_dir abs_output_file) items st0).
Proof.
  intros Hitem Hf.
  apply in_split in Hitem as (items1 & items2 & ->).
  apply in_split in Hf as (fs1 & fs2 & ->).
  rewrite fold_left_app. cbn [fold_left].
  set (sa := fold_left _ items1 st0).
  unfold process_dir at 2. rewrite fold_left_app. cbn [fold_left].
  set (sb := fold_left _ fs1 sa).
  exists sb. split.
  - eapply extends_trans; [apply walk_extends | apply process_files_extends].
  - eapply extends_trans; [apply process_files_extends | apply walk_extends].
Qed.

(** After the header the output file is open. *)
Lemma combine_files_body (w : world) (input_dir output_file : string)
    (st : state) :
  output_error w = None ->
  let abs_input_dir := abspath (getcwd w) input_dir in
  let abs_output_file := abspath (getcwd w) output_file in
  exists st0 header,
    outfile st0 = Some header
    /\ opened st0 = opened st
    /\ extends
         (fold_left (process_dir (getcwd w) abs_input_dir abs_output_file)
                    (walk_of w abs_input_dir) st0)
         (combine_files w input_dir output_file st).
Proof.
  intros Hopen. cbv zeta. unfold combine_files. rewrite Hopen.
  set (st0 := write _ (write _ (write _ (open_output st)))).
  eexists st0, _.
  split; [reflexivity|]. split; [reflexivity|].
  set (body := fold_left _ _ st0).
  eapply extends_trans; [apply extends_write|].
  destruct (0 <? _)%nat.
  - eapply extends_trans; apply extends_print.
  - apply extends_print.
Qed.

(** ** The output file is not an input *)

Section OutputGuard.

Variables cwd abs_input_dir abs_output_file : string.

Lemma process_file_opens_guarded (dirpath : string)
    (f : string * read_outcome) (st : state) :
  Forall (guarded cwd abs_output_file) (opened st) ->
  Forall (guarded cwd abs_output_file)
    (opened (process_file cwd abs_input_dir abs_output_file dirpath f st)).
Proof.
  intros H. destruct f as [filename r]. unfold process_file.
  destruct (str_in filename IGNORED_FILES); [exact H|].
  destruct (str_in _ IGNORED_EXTENSIONS); [exact H|].
  destruct (_ =? abs_output_file) eqn:E; [exact H|].
  apply String.eqb_neq in E.
  assert (Hop : forall s, opened (read_and_write (join dirpath filename) s r st)
                          = (opened st ++ [join dirpath filename])%list)
    by (intros s; now destruct r).
  rewrite Hop. apply Forall_app. split; [exact H|].
  constructor; [exact E | constructor].
Qed.

Lemma walk_opens_guarded (items : list walk_item) (st : state) :
  Forall (guarded cwd abs_output_file) (opened st) ->
  Forall (guarded cwd abs_output_file)
    (opened (fold_left (process_dir cwd abs_input_dir abs_output_file) items st)).
Proof.
  revert st. induction items as [|[[dirpath ds] fs] items IH]; intros st H;
    cbn [fold_left]; [exact H|].
  apply IH. unfold process_dir. clear IH.
  revert st H. induction fs as [|f fs IHf]; intros st H; cbn [fold_left];
    [exact H|].
  apply IHf. now apply process_file_opens_guarded.
Qed.

End OutputGuard.

Lemma combine_files_opened (w : world) (input_dir output_file : string)
    (st : state) :
  output_error w = None ->
  opened (combine_files w input_dir output_file st)
  = opened
      (fold_left
         (process_dir (getcwd w) (abspath (getcwd w) input_dir)
                      (abspath (getcwd w) output_file))
         (walk_of w (abspath (getcwd w) input_dir))
         (write ("# --- START OF COMBINED CONTENT ---" ++ nl ++ nl)
            (write ("# Output file: " ++ abspath (getcwd w) output_file ++ nl)
               (write ("# Combined content from directory: "
                       ++ abspath (getcwd w) input_dir ++ nl)
                  (open_output st))))).
Proof.
  intros Hopen. unfold combine_files. rewrite Hopen.
  destruct (0 <? _)%nat; reflexivity.
Qed.

(** What the guard of lines 104 to 107 does achieve.  In a whole run no
    path handed to [open] for reading has, as a string, the absolute path
    of the output file, so in particular the output path itself is never
    opened; and the loop body, met with the file whose joined path is the
    output path, writes nothing to the output (no start marker, no
    content), opens nothing and counts one skip, whatever that file
    contains.  The working directory is absolute. *)
Lemma equal_spelling_is_never_read (w : world) (input_dir output : string) :
  startswith (getcwd w) "/" = true ->
  let cwd := getcwd w in
  let abs_input_dir := abspath cwd input_dir in
  let abs_output_file := abspath cwd output in
  let st := snd (main w input_dir output) in
  ~ In abs_output_file (opened st)
  /\ (forall p, In p (opened st) -> abspath cwd p <> abs_output_file)
  /\ (forall dirpath filename r s,
        join dirpath filename = abs_output_file ->
        let s' := process_file cwd abs_input_dir abs_output_file dirpath
                    (filename, r) s in
        outfile s' = outfile s
        /\ opened s' = opened s
        /\ stderr s' = stderr s
        /\ processed_files s' = processed_files s
        /\ skipped_files s' = S (skipped_files s)).
Proof.
  intros Hcwd. cbv zeta.
  assert (Hall : forall p, In p (opened (snd (main w input_dir output))) ->
                   abspath (getcwd w) p <> abspath (getcwd w) output).
  { apply Forall_forall. unfold main.
    destruct (isdir w); cbn [negb snd]; [|constructor].
    destruct (output_error w) eqn:Hopen.
    - unfold combine_files. rewrite Hopen. constructor.
    - rewrite combine_files_opened by assumption.
      apply walk_opens_guarded. constructor. }
  split; [|split].
  - intros Hin. apply (Hall _ Hin). now apply abspath_idempotent.
  - exact Hall.
  - intros dirpath filename r s Hpath. unfold process_file.
    destruct (str_in filename IGNORED_FILES); [now repeat split|].
    destruct (str_in _ IGNORED_EXTENSIONS); [now repeat split|].
    rewrite Hpath, (abspath_idempotent _ _ Hcwd), String.eqb_refl.
    now repeat split.
Qed.

(** C4: the output file can be read as an input.  The guard compares the
    strings [abspath] returns, and [abspath] keeps a leading double slash.
    With [/tmp/x -o //tmp/x/out.txt] the output file is the entry
    [out.txt] of the input directory (the two paths have the same
    components), but its joined path [/tmp/x/out.txt] is not the string
    [//tmp/x/out.txt]: the file is opened for reading and announced, a
    record with the start marker of its relative path and whatever it
    holds at that moment is written into it, and it is counted as
    processed, nothing being skipped. *)
Theorem output_file_under_another_spelling_is_read (bytes : string) :
  let w := alias_world bytes in
  let final := snd (main w "/tmp/x" "//tmp/x/out.txt") in
  abspath (getcwd w) "//tmp/x/out.txt" = "//tmp/x/out.txt"
  /\ abspath (getcwd w) (join "/tmp/x" "out.txt") = "/tmp/x/out.txt"
  /\ nonempty_comps "//tmp/x/out.txt" = nonempty_comps "/tmp/x/out.txt"
  /\ fst (main w "/tmp/x" "//tmp/x/out.txt") = 0%Z
  /\ opened final = ["/tmp/x/out.txt"; "/tmp/x/a.txt"]
  /\ stdout final
     = ["Processing: out.txt"; "Processing: a.txt";
        nl ++ "Successfully combined 2 files into '//tmp/x/out.txt'."]
  /\ stderr final = []
  /\ outfile final
     = Some (header "/tmp/x" "//tmp/x/out.txt"
             ++ (start_marker "out.txt" ++ read_text bytes
                 ++ end_marker "out.txt")
             ++ (start_marker "a.txt" ++ "hello" ++ end_marker "a.txt")
             ++ footer)
  /\ processed_files final = 2
  /\ skipped_files final = 0.
Proof.
  cbv zeta.
  assert (Hout :
    outfile (snd (main (alias_world bytes) "/tmp/x" "//tmp/x/out.txt"))
    = Some (((((((header "/tmp/x" "//tmp/x/out.txt" ++ start_marker "out.txt")
                 ++ read_text bytes) ++ end_marker "out.txt")
               ++ start_marker "a.txt") ++ "hello") ++ end_marker "a.txt")
            ++ footer))
    by (vm_compute; reflexivity).
  rewrite Hout, !append_assoc.
  repeat split; vm_compute; reflexivity.
Qed.

(** ** Files that carry a directory's name *)

(** The pruning acts on [dirnames] only: a file is listed under its name
    whatever that name is. *)
Lemma file_is_listed (filename : string) (r : read_outcome)
    (es : list (string * node)) :
  In (filename, File r) es -> In (filename, r) (filenames es).
Proof.
  induction es as [| [d [r' | sub]] l IHl]; simpl; intros H.
  - contradiction.
  - destruct H as [H | H]; [left; congruence | right; auto].
  - destruct H as [H | H]; [discriminate | auto].
Qed.

Lemma root_is_walked (prune : list string -> list string) (top : string)
    (es : list (string * node)) :
  In (top, dirnames es, filenames es) (os_walk prune top (Dir es)).
Proof. rewrite os_walk_Dir. now left. Qed.

(** No name in [IGNORED_DIRS] is caught by the two file filters. *)
Lemma ignored_dir_names_pass_file_filters (name : string) :
  str_in name IGNORED_DIRS = true ->
  str_in name IGNORED_FILES = false
  /\ str_in (lower (snd (splitext name))) IGNORED_EXTENSIONS = false.
Proof.
  intros H. apply str_in_In in H. simpl in H.
  repeat (destruct H as [<- | H]; [split; reflexivity|]). contradiction.
Qed.

(** C9, as the code has it: a file whose name is in [IGNORED_DIRS] (such
    as [build] or [logs]), not in [IGNORED_FILES] and without an ignored
    extension, is a candidate like any other file.  The loop body never
    skips it as ignored: it is skipped only when it is the output file
    itself, and otherwise it is opened and read, which appends its record,
    announces it and counts it as processed when the read succeeds, and
    reports it and counts it as skipped when the read raises.  Listed in
    a directory the walk yields, not the output file and readable, it is
    opened, announced on standard output and its record is in the output
    file at the end of the run.  The directory filter never looks at file
    names. *)
Theorem file_named_like_ignored_dir_is_processed (filename : string) :
  str_in filename IGNORED_DIRS = true ->
  str_in filename IGNORED_FILES = false ->
  str_in (lower (snd (splitext filename))) IGNORED_EXTENSIONS = false ->
  (forall cwd abs_input_dir abs_output_file dirpath r st,
     process_file cwd abs_input_dir abs_output_file dirpath (filename, r) st
     = if abspath cwd (join dirpath filename) =? abs_output_file
       then incr_skipped
              (print ("Skipping the output file itself: "
                      ++ join dirpath filename) st)
       else
         let file_path := join dirpath filename in
         let relative_path := relpath cwd file_path abs_input_dir in
         match r with
         | ReadBytes bytes =>
             mkState
               (match outfile st with
                | Some t =>
                    Some (t ++ start_marker relative_path ++ read_text bytes
                          ++ end_marker relative_path)
                | None => None
                end)
               (stdout st ++ ["Processing: " ++ relative_path])
               (stderr st) (opened st ++ [file_path])
               (S (processed_files st)) (skipped_files st)
         | ReadOSError e =>
             mkState (outfile st) (stdout st)
               (stderr st ++ ["Error reading file " ++ file_path ++ ": " ++ e])
               (opened st ++ [file_path])
               (processed_files st) (S (skipped_files st))
         | ReadException e =>
             mkState (outfile st) (stdout st)
               (stderr st
                ++ ["Unexpected error processing file " ++ file_path
                    ++ ": " ++ e])
               (opened st ++ [file_path])
               (processed_files st) (S (skipped_files st))
         end)
  /\ (forall (w : world) (input_dir output dirpath : string)
             (ds : list string) (fs : list (string * read_outcome))
             (bytes : string),
        let cwd := getcwd w in
        let abs_input_dir := abspath cwd input_dir in
        let abs_output_file := abspath cwd output in
        isdir w = true ->
        output_error w = None ->
        In (dirpath, ds, fs) (walk_of w abs_input_dir) ->
        In (filename, ReadBytes bytes) fs ->
        abspath cwd (join dirpath filename) <> abs_output_file ->
        let st := snd (main w input_dir output) in
        let relative_path := relpath cwd (join dirpath filename) abs_input_dir in
        In (join dirpath filename) (opened st)
        /\ In ("Processing: " ++ relative_path) (stdout st)
        /\ exists before after,
             outfile st
             = Some (before
                     ++ (start_marker relative_path ++ read_text bytes
                         ++ end_marker relative_path)
                     ++ after)).
Proof.
  intros _ Hname Hext. split.
  { intros. unfold process_file. rewrite Hname, Hext.
    destruct (_ =? abs_output_file); [reflexivity|].
    apply read_and_write_state. }
  intros w input_dir output dirpath ds fs bytes
         cwd abs_input_dir abs_output_file Hdir Hopen Hitem Hf Hout.
  cbv zeta. unfold main. rewrite Hdir. cbn [negb snd].
  destruct (combine_files_body w input_dir output initial_state Hopen)
    as (st0 & header & Hheader & _ & Hfinal).
  destruct (every_listed_file_is_stepped cwd abs_input_dir abs_output_file
              _ st0 _ _ _ _ Hitem Hf) as (st1 & H01 & H1).
  fold cwd abs_input_dir abs_output_file in Hfinal.
  pose proof (extends_trans _ _ _ H1 Hfinal) as Hext1. clear H1 Hfinal.
  destruct H01 as (Hout01 & _ & _).
  destruct (Hout01 _ Hheader) as (x & Hx).
  rewrite (process_file_candidate cwd abs_input_dir abs_output_file dirpath
             filename (ReadBytes bytes) st1 Hname Hext Hout) in Hext1.
  destruct Hext1 as (Ho & (l & Hp) & (m & Hs)).
  repeat split.
  - rewrite Hp. apply in_or_app. left. simpl. apply in_or_app. right. now left.
  - rewrite Hs. apply in_or_app. left. simpl. apply in_or_app. right. now left.
  - edestruct Ho as (after & Hafter).
    { simpl. rewrite Hx. reflexivity. }
    exists (header ++ x), after. rewrite Hafter. f_equal.
    now rewrite !append_assoc.
Qed.

(** ** Read failures *)

Lemma combine_files_completes (w : world) (input_dir output_file : string)
    (st : state) :
  output_error w = None ->
  exists body,
    outfile (combine_files w input_dir output_file st)
    = Some (body ++ "# --- END OF COMBINED CONTENT ---" ++ nl).
Proof.
  intros Hopen. unfold combine_files. rewrite Hopen.
  set (st0 := write _ (write _ (write _ (open_output st)))).
  destruct (walk_extends (getcwd w) (abspath (getcwd w) input_dir)
              (abspath (getcwd w) output_file)
              (walk_of w (abspath (getcwd w) input_dir)) st0) as (Ho & _).
  edestruct Ho as (x & Hx); [reflexivity|].
  destruct (0 <? _)%nat; cbn [outfile print write]; rewrite Hx;
    eexists; reflexivity.
Qed.

Lemma reports_kept_refl (st : state) : reports_kept st st.
Proof. split; [exists []; now rewrite app_nil_r | apply Nat.le_refl]. Qed.

Lemma reports_kept_trans (a b c : state) :
  reports_kept a b -> reports_kept b c -> reports_kept a c.
Proof.
  intros ((l1 & H1) & L1) ((l2 & H2) & L2). split.
  - exists (l1 ++ l2)%list. now rewrite H2, H1, app_assoc.
  - eapply Nat.le_trans; eassumption.
Qed.

Lemma reports_kept_skip (line : string) (st : state) :
  reports_kept st (incr_skipped (print line st)).
Proof.
  split; [exists []; cbn; now rewrite app_nil_r | cbn; apply Nat.le_succ_diag_r].
Qed.

Lemma process_file_reports_kept
    (cwd abs_input_dir abs_output_file dirpath : string)
    (f : string * read_outcome) (st : state) :
  reports_kept st (process_file cwd abs_input_dir abs_output_file dirpath f st).
Proof.
  destruct f as [filename r]. unfold process_file.
  destruct (str_in filename IGNORED_FILES); [apply reports_kept_skip|].
  destruct (str_in _ IGNORED_EXTENSIONS); [apply reports_kept_skip|].
  destruct (_ =? abs_output_file); [apply reports_kept_skip|].
  rewrite read_and_write_state.
  destruct r; split; cbn;
    try (exists []; now rewrite app_nil_r);
    try (eexists; reflexivity);
    try apply Nat.le_refl; apply Nat.le_succ_diag_r.
Qed.

Lemma process_files_reports_kept
    (cwd abs_input_dir abs_output_file dirpath : string)
    (fs : list (string * read_outcome)) (st : state) :
  reports_kept st
    (fold_left
       (fun s f => process_file cwd abs_input_dir abs_output_file dirpath f s)
       fs st).
Proof.
  revert st. induction fs as [|f fs IH]; intros st; cbn [fold_left].
  - apply reports_kept_refl.
  - eapply reports_kept_trans; [apply process_file_reports_kept | apply IH].
Qed.

Lemma walk_reports_kept (cwd abs_input_dir abs_output_file : string)
    (items : list walk_item) (st : state) :
  reports_kept st
    (fold_left (process_dir cwd abs_input_dir abs_output_file) items st).
Proof.
  revert st. induction items as [|[[dirpath ds] fs] items IH]; intros st;
    cbn [fold_left].
  - apply reports_kept_refl.
  - eapply reports_kept_trans; [apply process_files_reports_kept | apply IH].
Qed.

Lemma fold_at_listed_file (cwd abs_input_dir abs_output_file : string)
    (items1 items2 : list walk_item) (dirpath : string) (ds : list string)
    (fs1 fs2 : list (string * read_outcome)) (f : string * read_outcome)
    (st0 : state) :
  fold_left (process_dir cwd abs_input_dir abs_output_file)
    (items1 ++ (dirpath, ds, (fs1 ++ f :: fs2)%list) :: items2)%list st0
  = fold_left (process_dir cwd abs_input_dir abs_output_file) items2
      (process_dir cwd abs_input_dir abs_output_file
         (process_file cwd abs_input_dir abs_output_file dirpath f
            (process_dir cwd abs_input_dir abs_output_file
               (fold_left (process_dir cwd abs_input_dir abs_output_file)
                  items1 st0)
               (dirpath, ds, fs1)))
         (dirpath, ds, fs2)).
Proof.
  rewrite fold_left_app. cbn [fold_left]. f_equal.
  unfold process_dir. now rewrite fold_left_app.
Qed.

(** Every listed file has its turn in a completed run: the loop body is
    applied to it in a state where the output file is open, and what that
    turn wrote, opened, printed and reported is still there at the end. *)
Lemma listed_file_has_its_turn (w : world) (input_dir output : string)
    (dirpath : string) (ds : list string) (fs : list (string * read_outcome))
    (f : string * read_outcome) :
  output_error w = None ->
  In (dirpath, ds, fs) (walk_of w (abspath (getcwd w) input_dir)) ->
  In f fs ->
  exists st1 t1,
    outfile st1 = Some t1
    /\ extends
         (process_file (getcwd w) (abspath (getcwd w) input_dir)
            (abspath (getcwd w) output) dirpath f st1)
         (combine_files w input_dir output initial_state)
    /\ reports_kept
         (process_file (getcwd w) (abspath (getcwd w) input_dir)
            (abspath (getcwd w) output) dirpath f st1)
         (combine_files w input_dir output initial_state).
Proof.
  intros Hopen Hitem Hf.
  unfold combine_files. rewrite Hopen.
  set (cwd := getcwd w) in *. set (ain := abspath cwd input_dir) in *.
  set (aout := abspath cwd output).
  set (st0 := write _ (write _ (write _ (open_output initial_state)))).
  apply in_split in Hitem as (items1 & items2 & Hitems).
  apply in_split in Hf as (fs1 & fs2 & ->).
  rewrite Hitems, fold_at_listed_file.
  set (sb := process_dir cwd ain aout
               (fold_left (process_dir cwd ain aout) items1 st0)
               (dirpath, ds, fs1)).
  set (sc := process_file cwd ain aout dirpath f sb).
  set (sd := fold_left (process_dir cwd ain aout) items2
               (process_dir cwd ain aout sc (dirpath, ds, fs2))).
  assert (H0b : extends st0 sb).
  { eapply extends_trans; [apply walk_extends | apply process_dir_extends]. }
  assert (Hcd : extends sc sd).
  { eapply extends_trans; [apply process_dir_extends | apply walk_extends]. }
  assert (Rcd : reports_kept sc sd).
  { eapply reports_kept_trans;
      [apply (process_files_reports_kept cwd ain aout dirpath fs2)
      | apply walk_reports_kept]. }
  destruct H0b as (Hout0 & _ & _).
  edestruct Hout0 as (x & Hx); [reflexivity|].
  eexists sb, _. split; [exact Hx|].
  assert (Hend : extends sd (write ("# --- END OF COMBINED CONTENT ---" ++ nl) sd))
    by apply extends_write.
  destruct (0 <? _)%nat.
  - split.
    + eapply extends_trans; [exact Hcd|].
      eapply extends_trans; [exact Hend|].
      eapply extends_trans; apply extends_print.
    + exact Rcd.
  - split.
    + eapply extends_trans; [exact Hcd|].
      eapply extends_trans; [exact Hend | apply extends_print].
    + exact Rcd.
Qed.

(** C5: a candidate whose read raises (an [OSError], or anything else the
    broad handler catches) is handed to [open], reported on the diagnostic
    stream and counted as skipped; nothing is written to the output file
    for it, not even a start marker, and nothing is printed on standard
    output.  The directory loop then goes on with the files that follow,
    from exactly that state.  In a whole run where such a file is listed,
    the exit status is 0, its report is on the diagnostic stream at the
    end, the skip counter is at least one, the output file ends with the
    footer line, and every readable candidate the walk lists, before or
    after the failing file, has been opened, announced and given its
    record in the output file. *)
Theorem read_failure_is_skipped (filename e : string) (r : read_outcome) :
  str_in filename IGNORED_FILES = false ->
  str_in (lower (snd (splitext filename))) IGNORED_EXTENSIONS = false ->
  r = ReadOSError e \/ r = ReadException e ->
  let report := fun dirpath =>
    match r with
    | ReadException _ => "Unexpected error processing file "
    | _ => "Error reading file "
    end ++ join dirpath filename ++ ": " ++ e in
  (forall cwd abs_input_dir abs_output_file dirpath ds rest st,
     abspath cwd (join dirpath filename) <> abs_output_file ->
     let st' :=
       mkState (outfile st) (stdout st)
         (stderr st ++ [report dirpath])%list
         (opened st ++ [join dirpath filename])%list
         (processed_files st) (S (skipped_files st)) in
     process_file cwd abs_input_dir abs_output_file dirpath (filename, r) st
     = st'
     /\ process_dir cwd abs_input_dir abs_output_file st
          (dirpath, ds, (filename, r) :: rest)
        = process_dir cwd abs_input_dir abs_output_file st'
            (dirpath, ds, rest))
  /\ (forall w input_dir output dirpath ds fs,
        isdir w = true -> output_error w = None ->
        let cwd := getcwd w in
        let abs_input_dir := abspath cwd input_dir in
        let abs_output_file := abspath cwd output in
        In (dirpath, ds, fs) (walk_of w abs_input_dir) ->
        In (filename, r) fs ->
        abspath cwd (join dirpath filename) <> abs_output_file ->
        let final := snd (main w input_dir output) in
        fst (main w input_dir output) = 0%Z
        /\ In (report dirpath) (stderr final)
        /\ 1 <= skipped_files final
        /\ (exists text,
              outfile final
              = Some (text ++ "# --- END OF COMBINED CONTENT ---" ++ nl))
        /\ (forall dirpath' ds' fs' g bytes,
              In (dirpath', ds', fs') (walk_of w abs_input_dir) ->
              In (g, ReadBytes bytes) fs' ->
              str_in g IGNORED_FILES = false ->
              str_in (lower (snd (splitext g))) IGNORED_EXTENSIONS = false ->
              abspath cwd (join dirpath' g) <> abs_output_file ->
              let rel := relpath cwd (join dirpath' g) abs_input_dir in
              In (join dirpath' g) (opened final)
              /\ In ("Processing: " ++ rel) (stdout final)
              /\ exists before after,
                   outfile final
                   = Some (before ++ (start_marker rel ++ read_text bytes
                                      ++ end_marker rel) ++ after))).
Proof.
  intros Hname Hext Hr report. split.
  - intros cwd ain aout dirpath ds rest st Hout st'.
    assert (E : process_file cwd ain aout dirpath (filename, r) st = st').
    { rewrite (process_file_candidate cwd ain aout dirpath filename r st
                 Hname Hext Hout), read_and_write_state.
      subst st' report. destruct Hr as [-> | ->]; reflexivity. }
    split; [exact E|].
    unfold process_dir. cbn [fold_left]. now rewrite E.
  - intros w input_dir output dirpath ds fs Hdir Hopen cwd ain aout
      Hitem Hf Hout final.
    assert (Hmain : main w input_dir output
                    = (0%Z, combine_files w input_dir output initial_state)).
    { unfold main. now rewrite Hdir. }
    subst final. rewrite Hmain. cbn [fst snd].
    split; [reflexivity|].
    destruct (listed_file_has_its_turn w input_dir output dirpath ds fs
                (filename, r) Hopen Hitem Hf)
      as (st1 & t1 & _ & _ & ((l & Hl) & Hle)).
    fold cwd ain aout in Hl, Hle.
    rewrite (process_file_candidate cwd ain aout dirpath filename r st1
               Hname Hext Hout), read_and_write_state in Hl, Hle.
    split; [|split; [|split]].
    + rewrite Hl. apply in_or_app. left.
      subst report. destruct Hr as [-> | ->]; cbn [stderr];
        apply in_or_app; right; left; reflexivity.
    + eapply Nat.le_trans; [|exact Hle].
      destruct Hr as [-> | ->]; cbn [skipped_files]; apply le_n_S, Nat.le_0_l.
    + now apply combine_files_completes.
    + intros dirpath' ds' fs' g bytes Hitem' Hg Hgname Hgext Hgout.
      destruct (listed_file_has_its_turn w input_dir output dirpath' ds' fs'
                  (g, ReadBytes bytes) Hopen Hitem' Hg)
        as (st2 & t2 & Ht2 & (Ho & (lo & Hlo) & (ls & Hls)) & _).
      fold cwd ain aout in Ho, Hlo, Hls.
      rewrite (process_file_candidate cwd ain aout dirpath' g (ReadBytes bytes)
                 st2 Hgname Hgext Hgout), read_and_write_state in Ho, Hlo, Hls.
      cbn [outfile opened stdout] in Ho, Hlo, Hls. rewrite Ht2 in Ho.
      split; [|split].
      * rewrite Hlo. apply in_or_app. left. apply in_or_app. right.
        left. reflexivity.
      * rewrite Hls. apply in_or_app. left. apply in_or_app. right.
        left. reflexivity.
      * destruct (Ho _ eq_refl) as (x & Hx).
        exists t2, x. rewrite Hx. now rewrite append_assoc.
Qed.

(** ** Bytes that do not decode *)

(** C8, as the code has it: bytes that are not UTF-8 never make the read
    fail and never get the file skipped.  Whatever a candidate file
    holds, its read returns text, the record with that text is written,
    the processed counter goes up, the skip counter and the diagnostic
    stream stay as they were.  The text is the file's bytes with the
    undecodable ones left out, nothing being put in their place: it is
    always well-formed, never longer than the file, and equal to the file
    (before newline translation) when the file was well-formed. *)
Theorem undecodable_bytes_never_fail_the_read
    (cwd abs_input_dir abs_output_file dirpath filename bytes text : string)
    (st : state) :
  str_in filename IGNORED_FILES = false ->
  str_in (lower (snd (splitext filename))) IGNORED_EXTENSIONS = false ->
  abspath cwd (join dirpath filename) <> abs_output_file ->
  outfile st = Some text ->
  let relative_path := relpath cwd (join dirpath filename) abs_input_dir in
  let st' := process_file cwd abs_input_dir abs_output_file dirpath
               (filename, ReadBytes bytes) st in
  outfile st'
  = Some (text ++ start_marker relative_path
          ++ universal_newlines (decode_utf8_ignore bytes)
          ++ end_marker relative_path)
  /\ processed_files st' = S (processed_files st)
  /\ skipped_files st' = skipped_files st
  /\ stderr st' = stderr st
  /\ utf8_valid (decode_utf8_ignore bytes) = true
  /\ length (decode_utf8_ignore bytes) <= length bytes
  /\ (utf8_valid bytes = true -> decode_utf8_ignore bytes = bytes).
Proof.
  intros Hname Hext Hout Htext. cbv zeta.
  rewrite process_file_candidate by assumption.
  unfold read_and_write, write, print, incr_processed, open_input, read_text;
    cbn [outfile processed_files skipped_files stderr].
  rewrite Htext. repeat split.
  - now rewrite !append_assoc.
  - apply decode_utf8_ignore_valid.
  - apply (decode_utf8_ignore_length_bounded (length bytes)). lia.
  - apply decode_utf8_ignore_id.
Qed.

(** ** The properties at work on concrete inputs *)


Lemma record_of_candidate_witness :
  outfile (process_file "/w" "/w/p" "/w/out.txt" "/w/p/src"
             ("a.txt", ReadBytes "hello") (open_output initial_state))
  = Some ("--- START FILE: src/a.txt ---" ++ nl ++ "hello" ++ nl
          ++ "--- END FILE: src/a.txt ---" ++ nl ++ nl).
Proof.
  apply (proj1 (record_of_candidate "/w" "/w/p" "/w/out.txt" "/w/p/src"
                  "a.txt" "hello" "" (open_output initial_state)
                  eq_refl eq_refl
                  ltac:(vm_compute; discriminate) eq_refl)).
Defined.

(** C3 as the claim words it, with the raw bytes of the file between the
    markers, does not hold: a file holding [a\r\nb] is written as [a\nb]. *)
Lemma raw_content_is_not_always_kept :
  ~ (forall cwd abs_input_dir abs_output_file dirpath filename bytes text st,
       str_in filename IGNORED_FILES = false ->
       str_in (lower (snd (splitext filename))) IGNORED_EXTENSIONS = false ->
       abspath cwd (join dirpath filename) <> abs_output_file ->
       outfile st = Some text ->
       let relative_path := relpath cwd (join dirpath filename) abs_input_dir in
       outfile (process_file cwd abs_input_dir abs_output_file dirpath
                  (filename, ReadBytes bytes) st)
       = Some (text ++ start_marker relative_path ++ bytes
               ++ end_marker relative_path)).
Proof.
  intros H.
  specialize (H "/w" "/w/p" "/w/out.txt" "/w/p" "f.txt"
                (String "a" (String CR (String LF "b"))) ""
                (open_output initial_state)
                eq_refl eq_refl ltac:(vm_compute; discriminate) eq_refl).
  vm_compute in H. discriminate H.
Qed.

Lemma exit_status_witness :
  fst (main (mkWorld "/home/u" None None) "proj" "out.txt") = 1%Z
  /\ fst (main (mkWorld "/home/u" (Some (File (ReadBytes "x"))) None)
            "proj" "out.txt") = 1%Z
  /\ fst (main demo_world "proj" "out.txt") = 0%Z.
Proof.
  split; [|split].
  - apply (proj1 (exit_status (mkWorld "/home/u" None None) "proj" "out.txt")).
    left. reflexivity.
  - apply (proj1 (exit_status
                    (mkWorld "/home/u" (Some (File (ReadBytes "x"))) None)
                    "proj" "out.txt")).
    right. eexists. reflexivity.
  - apply (proj2 (exit_status demo_world "proj" "out.txt")).
    eexists. reflexivity.
Defined.

Lemma counters_cover_encountered_files_witness :
  processed_files (snd (main demo_world "proj" "proj/src/out.txt"))
  + skipped_files (snd (main demo_world "proj" "proj/src/out.txt"))
  = 6.
Proof.
  apply (counters_cover_encountered_files demo_world "proj" "proj/src/out.txt"
           _ eq_refl eq_refl).
Defined.

(** C7 as the claim words it, counting every filesystem entry, does not
    hold: under a root that holds [a.txt] and the directory [src] with
    [m.py] there are three entries, and the two counters add up to 2. *)
Lemma directories_are_not_counted :
  ~ (forall w input_dir output es,
       input_node w = Some (Dir es) ->
       output_error w = None ->
       let st := snd (main w input_dir output) in
       processed_files st + skipped_files st = entries_encountered (Dir es)).
Proof.
  intros H.
  specialize (H (mkWorld "/home/u"
                   (Some (Dir [ ("a.txt", File (ReadBytes "hello"));
                                ("src", Dir [("m.py", File (ReadBytes "x"))]) ]))
                   None)
                "proj" "out.txt" _ eq_refl eq_refl).
  vm_compute in H. discriminate H.
Qed.

Lemma equal_spelling_is_never_read_demo :
  ~ In "/home/u/proj/src/out.txt"
       (opened (snd (main demo_world "proj" "proj/src/out.txt"))).
Proof.
  apply (proj1 (equal_spelling_is_never_read demo_world "proj" "proj/src/out.txt"
                  eq_refl)).
Defined.

Lemma file_named_like_ignored_dir_is_processed_witness :
  In "/home/u/proj/build" (opened (snd (main demo_world "proj" "out.txt")))
  /\ In "Processing: build" (stdout (snd (main demo_world "proj" "out.txt"))).
Proof.
  pose proof (proj2 (file_named_like_ignored_dir_is_processed "build"
                       eq_refl eq_refl eq_refl)
                demo_world "proj" "out.txt" "/home/u/proj"
                [".git"; "src"]
                [("a.txt", ReadBytes "hello"); ("b.png", ReadBytes "xx");
                 ("build", ReadBytes "all:")]
                "all:" eq_refl eq_refl
                (or_introl eq_refl)
                (or_intror (or_intror (or_introl eq_refl)))
                ltac:(vm_compute; discriminate)) as (Hopened & Hstdout & _).
  split; [exact Hopened | exact Hstdout].
Defined.

(** C9 as the claim words it, every such file being processed, does not
    hold.  A run of [proj] with [-o proj/build] never opens the file
    [build] for reading: it is the output file, and is skipped as such.
    And a file [logs] whose read raises is counted as skipped, not as
    processed. *)
Lemma file_named_like_ignored_dir_can_be_skipped :
  ~ (forall w input_dir output dirpath ds fs filename r,
       isdir w = true ->
       output_error w = None ->
       In (dirpath, ds, fs) (walk_of w (abspath (getcwd w) input_dir)) ->
       In (filename, r) fs ->
       str_in filename IGNORED_DIRS = true ->
       str_in filename IGNORED_FILES = false ->
       str_in (lower (snd (splitext filename))) IGNORED_EXTENSIONS = false ->
       In (join dirpath filename) (opened (snd (main w input_dir output))))
  /\ ~ (forall cwd abs_input_dir abs_output_file dirpath filename r st,
          str_in filename IGNORED_DIRS = true ->
          str_in filename IGNORED_FILES = false ->
          str_in (lower (snd (splitext filename))) IGNORED_EXTENSIONS = false ->
          abspath cwd (join dirpath filename) <> abs_output_file ->
          processed_files
            (process_file cwd abs_input_dir abs_output_file dirpath
               (filename, r) st)
          = S (processed_files st)).
Proof.
  split; intros H.
  - specialize (H demo_world "proj" "proj/build" "/home/u/proj"
                  [".git"; "src"]
                  [("a.txt", ReadBytes "hello"); ("b.png", ReadBytes "xx");
                   ("build", ReadBytes "all:")]
                  "build" (ReadBytes "all:") eq_refl eq_refl
                  (or_introl eq_refl)
                  (or_intror (or_intror (or_introl eq_refl)))
                  eq_refl eq_refl eq_refl).
    vm_compute in H.
    repeat (destruct H as [H | H]; [discriminate H|]). exact H.
  - specialize (H "/home/u" "/home/u/proj" "/home/u/out.txt" "/home/u/proj"
                  "logs" (ReadOSError "denied") initial_state
                  eq_refl eq_refl eq_refl ltac:(vm_compute; discriminate)).
    vm_compute in H. discriminate H.
Qed.

Lemma read_failure_is_skipped_witness :
  fst (main demo_world "proj" "out.txt") = 0%Z
  /\ In "Error reading file /home/u/proj/src/bad: denied"
        (stderr (snd (main demo_world "proj" "out.txt")))
  /\ 1 <= skipped_files (snd (main demo_world "proj" "out.txt"))
  /\ In "/home/u/proj/src/out.txt"
        (opened (snd (main demo_world "proj" "out.txt")))
  /\ In "Processing: src/out.txt"
        (stdout (snd (main demo_world "proj" "out.txt"))).
Proof.
  pose proof (proj2 (read_failure_is_skipped "bad" "denied"
                       (ReadOSError "denied") eq_refl eq_refl
                       (or_introl eq_refl))
                demo_world "proj" "out.txt" "/home/u/proj/src" []
                [("m.py", ReadBytes "x"); ("bad", ReadOSError "denied");
                 ("out.txt", ReadBytes "old")]
                eq_refl eq_refl
                (or_intror (or_introl eq_refl))
                (or_intror (or_introl eq_refl))
                ltac:(vm_compute; discriminate))
    as (Hexit & Hreport & Hskipped & _ & Hnext).
  destruct (Hnext "/home/u/proj/src" []
              [("m.py", ReadBytes "x"); ("bad", ReadOSError "denied");
               ("out.txt", ReadBytes "old")]
              "out.txt" "old"
              (or_intror (or_introl eq_refl))
              (or_intror (or_intror (or_introl eq_refl)))
              eq_refl eq_refl ltac:(vm_compute; discriminate))
    as (Hopened & Hstdout & _).
  exact (conj Hexit (conj Hreport (conj Hskipped (conj Hopened Hstdout)))).
Defined.

Lemma undecodable_bytes_never_fail_the_read_witness :
  outfile (process_file "/w" "/w/p" "/w/out.txt" "/w/p"
             ("f.txt", ReadBytes (String (ascii_of_nat 255) "ok"))
             (open_output initial_state))
  = Some ("--- START FILE: f.txt ---" ++ nl ++ "ok" ++ nl
          ++ "--- END FILE: f.txt ---" ++ nl ++ nl).
Proof.
  apply (proj1 (undecodable_bytes_never_fail_the_read "/w" "/w/p" "/w/out.txt"
                  "/w/p" "f.txt" (String (ascii_of_nat 255) "ok") ""
                  (open_output initial_state)
                  eq_refl eq_refl ltac:(vm_compute; discriminate) eq_refl)).
Defined.

(** C8 as the claim words it, a substitute being written where a byte
    does not decode, does not hold: of a file holding the byte [FF] and
    then [ok], the record holds [ok] and nothing else, so no text other
    than the empty one stands where the byte was. *)
Lemma undecodable_bytes_are_not_substituted :
  ~ (exists substitute : string,
       substitute <> ""
       /\ outfile (process_file "/w" "/w/p" "/w/out.txt" "/w/p"
                     ("f.txt", ReadBytes (String (ascii_of_nat 255) "ok"))
                     (open_output initial_state))
          = Some (start_marker "f.txt" ++ (substitute ++ "ok")
                  ++ end_marker "f.txt")).
Proof.
  intros (substitute & Hsome & H). apply Hsome.
  assert (Hrecord :
    outfile (process_file "/w" "/w/p" "/w/out.txt" "/w/p"
               ("f.txt", ReadBytes (String (ascii_of_nat 255) "ok"))
               (open_output initial_state))
    = Some (start_marker "f.txt" ++ "ok" ++ end_marker "f.txt"))
    by (vm_compute; reflexivity).
  rewrite Hrecord in H. injection H as H.
  apply (f_equal length) in H. rewrite !length_append in H.
  destruct substitute as [|c rest]; [reflexivity|].
  cbn [length] in H. lia.
Qed.

(** The scenario of the specification: [a.txt], [b.png] and [.git/config]. *)
Example scenario_one_record :
  let w := mkWorld "/home/u"
             (Some (Dir [ ("a.txt", File (ReadBytes "hello"));
                          ("b.png", File (ReadBytes "xx"));
                          (".git", Dir [("config", File (ReadBytes "cfg"))]) ]))
             None in
  let st := snd (main w "proj" "/tmp/out.txt") in
  opened st = ["/home/u/proj/a.txt"]
  /\ processed_files st = 1
  /\ skipped_files st = 1
  /\ stdout st = [ "Processing: a.txt";
                   "Skipping file with ignored extension: b.png";
                   nl ++ "Successfully combined 1 files into '/tmp/out.txt'.";
                   "Skipped 1 files (ignored, binary, or read errors)." ].
Proof. vm_compute. repeat split. Qed.

(** * Further properties of the program *)

(** ** The output file as a whole *)

Lemma concat_empty_cons (x : string) (l : list string) :
  String.concat "" (x :: l) = x ++ String.concat "" l.
Proof.
  destruct l; cbn [String.concat]; [now rewrite append_nil_r | reflexivity].
Qed.

Lemma render_records_app (a b : list (string * string)) :
  render_records (a ++ b) = render_records a ++ render_records b.
Proof.
  unfold render_records. induction a as [|x a IH]; [reflexivity|].
  cbn [map app]. now rewrite !concat_empty_cons, IH, append_assoc.
Qed.

Lemma records_of_item_cons (cwd abs_input_dir abs_output_file dirpath : string)
    (ds : list string) (f : string * read_outcome)
    (fs : list (string * read_outcome)) :
  records_of_item cwd abs_input_dir abs_output_file (dirpath, ds, f :: fs)
  = (records_of_item cwd abs_input_dir abs_output_file (dirpath, ds, [f])
     ++ records_of_item cwd abs_input_dir abs_output_file (dirpath, ds, fs))%list.
Proof.
  unfold records_of_item. cbn [snd fst flat_map]. now rewrite app_nil_r.
Qed.

(** What one turn of the loop body does to the output file and to the
    processed counter, in terms of the records of that one file. *)
Lemma process_file_records (cwd abs_input_dir abs_output_file dirpath : string)
    (ds : list string) (f : string * read_outcome) (st : state) :
  let recs := records_of_item cwd abs_input_dir abs_output_file
                (dirpath, ds, [f]) in
  let st' := process_file cwd abs_input_dir abs_output_file dirpath f st in
  outfile st' = match outfile st with
                | Some t => Some (t ++ render_records recs)
                | None => None
                end
  /\ processed_files st' = processed_files st + List.length recs.
Proof.
  destruct f as [filename r]. cbv zeta.
  unfold records_of_item, is_candidate, process_file. cbn [snd fst flat_map].
  destruct (str_in filename IGNORED_FILES); cbn [negb andb].
  { destruct r; cbn; (split; [destruct (outfile st); [now rewrite append_nil_r | reflexivity] | lia]). }
  destruct (str_in _ IGNORED_EXTENSIONS); cbn [negb andb].
  { destruct r; cbn; (split; [destruct (outfile st); [now rewrite append_nil_r | reflexivity] | lia]). }
  destruct (_ =? abs_output_file); cbn [negb andb].
  { destruct r; cbn; (split; [destruct (outfile st); [now rewrite append_nil_r | reflexivity] | lia]). }
  destruct r as [bytes | e | e].
  - unfold read_and_write, render_records, render_record.
    cbn [app map String.concat fst snd outfile processed_files List.length
         write print incr_processed open_input].
    split; [|lia].
    destruct (outfile st); [|reflexivity].
    now rewrite !append_assoc.
  - cbn. split; [destruct (outfile st); [now rewrite append_nil_r | reflexivity] | lia].
  - cbn. split; [destruct (outfile st); [now rewrite append_nil_r | reflexivity] | lia].
Qed.

Lemma process_dir_records (cwd abs_input_dir abs_output_file : string)
    (item : walk_item) (st : state) :
  let recs := records_of_item cwd abs_input_dir abs_output_file item in
  let st' := process_dir cwd abs_input_dir abs_output_file st item in
  outfile st' = match outfile st with
                | Some t => Some (t ++ render_records recs)
                | None => None
                end
  /\ processed_files st' = processed_files st + List.length recs.
Proof.
  destruct item as [[dirpath ds] fs]. cbv zeta. unfold process_dir.
  revert st. induction fs as [|f fs IH]; intros st.
  - cbn. split; [destruct (outfile st); [now rewrite append_nil_r | reflexivity] | lia].
  - cbn [fold_left]. destruct (IH (process_file cwd abs_input_dir abs_output_file dirpath f st)) as [Ho Hp].
    destruct (process_file_records cwd abs_input_dir abs_output_file dirpath ds f st) as [Ho1 Hp1].
    rewrite records_of_item_cons, render_records_app, length_app.
    rewrite Ho, Hp, Ho1, Hp1. split; [|lia].
    destruct (outfile st); [|reflexivity]. now rewrite append_assoc.
Qed.

Lemma walk_records (cwd abs_input_dir abs_output_file : string)
    (items : list walk_item) (st : state) :
  let recs := records_of cwd abs_input_dir abs_output_file items in
  let st' := fold_left (process_dir cwd abs_input_dir abs_output_file) items st in
  outfile st' = match outfile st with
                | Some t => Some (t ++ render_records recs)
                | None => None
                end
  /\ processed_files st' = processed_files st + List.length recs.
Proof.
  cbv zeta. revert st. induction items as [|item items IH]; intros st.
  - cbn. split; [destruct (outfile st); [now rewrite append_nil_r | reflexivity] | lia].
  - cbn [fold_left]. destruct (IH (process_dir cwd abs_input_dir abs_output_file st item)) as [Ho Hp].
    destruct (process_dir_records cwd abs_input_dir abs_output_file item st) as [Ho1 Hp1].
    unfold records_of in *. cbn [flat_map].
    rewrite render_records_app, length_app, Ho, Hp, Ho1, Hp1.
    split; [|lia].
    destruct (outfile st); [|reflexivity]. now rewrite append_assoc.
Qed.

Lemma combine_files_outfile (w : world) (input_dir output : string) :
  output_error w = None ->
  outfile (combine_files w input_dir output initial_state)
  = Some (header (abspath (getcwd w) input_dir) (abspath (getcwd w) output)
          ++ render_records
               (records_of (getcwd w) (abspath (getcwd w) input_dir)
                  (abspath (getcwd w) output)
                  (walk_of w (abspath (getcwd w) input_dir)))
          ++ footer).
Proof.
  intros Hopen. unfold combine_files. rewrite Hopen.
  set (st0 := write _ (write _ (write _ (open_output initial_state)))).
  destruct (walk_records (getcwd w) (abspath (getcwd w) input_dir)
              (abspath (getcwd w) output)
              (walk_of w (abspath (getcwd w) input_dir)) st0) as [Ho _].
  set (body := fold_left _ _ st0) in *.
  assert (Hfinal : outfile (write ("# --- END OF COMBINED CONTENT ---" ++ nl) body)
                   = Some (header (abspath (getcwd w) input_dir)
                                  (abspath (getcwd w) output)
                           ++ render_records
                                (records_of (getcwd w) (abspath (getcwd w) input_dir)
                                   (abspath (getcwd w) output)
                                   (walk_of w (abspath (getcwd w) input_dir)))
                           ++ footer)).
  { cbn [write outfile]. rewrite Ho. subst st0.
    cbn [write outfile open_output]. unfold header, footer.
    f_equal. rewrite !append_assoc. reflexivity. }
  destruct (0 <? _)%nat; exact Hfinal.
Qed.

(** X1: the output file of a completed run is the header, then the
    records of exactly the candidates whose read succeeded, in the order
    the walk lists them, then the footer; nothing else is ever written. *)
Theorem output_file_is_header_records_footer (w : world)
    (input_dir output : string) :
  isdir w = true ->
  output_error w = None ->
  let cwd := getcwd w in
  let abs_input_dir := abspath cwd input_dir in
  let abs_output_file := abspath cwd output in
  outfile (snd (main w input_dir output))
  = Some (header abs_input_dir abs_output_file
          ++ render_records
               (records_of cwd abs_input_dir abs_output_file
                  (walk_of w abs_input_dir))
          ++ footer).
Proof.
  intros Hdir Hopen. cbv zeta. unfold main. rewrite Hdir. cbn [negb snd].
  now apply combine_files_outfile.
Qed.

(** ** The summary and the diagnostics *)

Lemma records_at_most_files_item (cwd abs_input_dir abs_output_file : string)
    (item : walk_item) :
  List.length (records_of_item cwd abs_input_dir abs_output_file item)
  <= List.length (snd item).
Proof.
  unfold records_of_item. induction (snd item) as [|f fs IH]; [simpl; lia|].
  cbn [flat_map]. rewrite length_app. cbn [List.length].
  destruct (snd f); [destruct (is_candidate _ _ _ _)|..]; simpl; lia.
Qed.

Lemma records_at_most_files (cwd abs_input_dir abs_output_file : string)
    (items : list walk_item) :
  List.length (records_of cwd abs_input_dir abs_output_file items)
  <= files_listed items.
Proof.
  unfold records_of. induction items as [|item items IH]; [simpl; lia|].
  cbn [flat_map]. rewrite length_app, files_listed_cons.
  pose proof (records_at_most_files_item cwd abs_input_dir abs_output_file item).
  lia.
Qed.

(** X2: the summary tells the truth about the output file.  In a
    completed run [processed_files] is the number of records in the
    output file and [skipped_files] the number of listed files that got
    none; the last lines of standard output are the success line with the
    first number and, exactly when the second is not zero, the line with
    the second. *)
Theorem summary_counts_the_records (w : world) (input_dir output : string) :
  isdir w = true ->
  output_error w = None ->
  let cwd := getcwd w in
  let abs_input_dir := abspath cwd input_dir in
  let items := walk_of w abs_input_dir in
  let written :=
    List.length (records_of cwd abs_input_dir (abspath cwd output) items) in
  let left_out := files_listed items - written in
  let success :=
    nl ++ "Successfully combined " ++ str_of_nat written
    ++ " files into '" ++ output ++ "'." in
  let skipped :=
    "Skipped " ++ str_of_nat left_out
    ++ " files (ignored, binary, or read errors)." in
  let st := snd (main w input_dir output) in
  processed_files st = written
  /\ skipped_files st = left_out
  /\ exists progress,
       stdout st
       = (progress ++ [success]
          ++ (if (0 <? left_out)%nat then [skipped] else []))%list.
Proof.
  intros Hdir Hopen. cbv zeta. unfold main. rewrite Hdir. cbn [negb snd].
  unfold combine_files. rewrite Hopen.
  set (st0 := write _ (write _ (write _ (open_output initial_state)))).
  destruct (walk_records (getcwd w) (abspath (getcwd w) input_dir)
              (abspath (getcwd w) output)
              (walk_of w (abspath (getcwd w) input_dir)) st0) as [_ Hp].
  pose proof (walk_counts (getcwd w) (abspath (getcwd w) input_dir)
                (abspath (getcwd w) output)
                (walk_of w (abspath (getcwd w) input_dir)) st0) as Hc.
  pose proof (records_at_most_files (getcwd w) (abspath (getcwd w) input_dir)
                (abspath (getcwd w) output)
                (walk_of w (abspath (getcwd w) input_dir))) as Hle.
  set (body := fold_left _ _ st0) in *.
  unfold counted in Hc. change (processed_files st0) with 0 in *.
  change (skipped_files st0) with 0 in *. cbn [Nat.add] in *.
  set (recs := records_of _ _ _ _) in *.
  assert (Hs : skipped_files body
               = files_listed (walk_of w (abspath (getcwd w) input_dir))
                 - List.length recs) by lia.
  cbn [write print processed_files skipped_files].
  rewrite <- Hs, <- Hp.
  destruct (0 <? skipped_files body)%nat;
    cbn [print write processed_files skipped_files stdout];
    (split; [reflexivity | split; [reflexivity|]]).
  - exists (stdout body). now rewrite <- app_assoc.
  - exists (stdout body). now rewrite app_nil_r.
Qed.

(** Every file the loop body sees is reported on exactly one line, on
    standard output or on the diagnostic stream, and every file opened is
    either processed or the subject of an error report. *)
Lemma process_file_reports_once (cwd abs_input_dir abs_output_file dirpath : string)
    (f : string * read_outcome) (st : state) :
  let st' := process_file cwd abs_input_dir abs_output_file dirpath f st in
  List.length (stdout st') + List.length (stderr st')
  = S (List.length (stdout st) + List.length (stderr st))
  /\ List.length (opened st') + processed_files st + List.length (stderr st)
     = List.length (opened st) + processed_files st' + List.length (stderr st').
Proof.
  destruct f as [filename r]. cbv zeta. unfold process_file.
  destruct (str_in filename IGNORED_FILES);
    [cbn; rewrite length_app; cbn; lia|].
  destruct (str_in _ IGNORED_EXTENSIONS);
    [cbn; rewrite length_app; cbn; lia|].
  destruct (_ =? abs_output_file);
    [cbn; rewrite length_app; cbn; lia|].
  destruct r; cbn; rewrite !length_app; cbn; lia.
Qed.

Lemma process_dir_reports_once (cwd abs_input_dir abs_output_file : string)
    (item : walk_item) (st : state) :
  let st' := process_dir cwd abs_input_dir abs_output_file st item in
  List.length (stdout st') + List.length (stderr st')
  = List.length (stdout st) + List.length (stderr st) + List.length (snd item)
  /\ List.length (opened st') + processed_files st + List.length (stderr st)
     = List.length (opened st) + processed_files st' + List.length (stderr st').
Proof.
  destruct item as [[dirpath ds] fs]. cbv zeta. unfold process_dir. cbn [snd].
  revert st. induction fs as [|f fs IHf]; intros st; cbn [fold_left List.length].
  - lia.
  - specialize (IHf (process_file cwd abs_input_dir abs_output_file dirpath f st)).
    pose proof (process_file_reports_once cwd abs_input_dir abs_output_file
                  dirpath f st) as Hf.
    cbv zeta in Hf. lia.
Qed.

Lemma walk_reports_once (cwd abs_input_dir abs_output_file : string)
    (items : list walk_item) (st : state) :
  let st' := fold_left (process_dir cwd abs_input_dir abs_output_file) items st in
  List.length (stdout st') + List.length (stderr st')
  = List.length (stdout st) + List.length (stderr st) + files_listed items
  /\ List.length (opened st') + processed_files st + List.length (stderr st)
     = List.length (opened st) + processed_files st' + List.length (stderr st').
Proof.
  cbv zeta. revert st.
  induction items as [|item items IH]; intros st; cbn [fold_left].
  - unfold files_listed. simpl. lia.
  - rewrite files_listed_cons.
    specialize (IH (process_dir cwd abs_input_dir abs_output_file st item)).
    pose proof (process_dir_reports_once cwd abs_input_dir abs_output_file
                  item st) as Hd.
    cbv zeta in Hd. lia.
Qed.

(** X3: in a completed run each listed file accounts for exactly one
    line of diagnostics (a progress or skip line on standard output, or an
    error report), the summary adds one or two lines, and the files
    opened are the files processed plus the files reported as errors. *)
Theorem every_file_is_reported_once (w : world) (input_dir output : string) :
  isdir w = true ->
  output_error w = None ->
  let st := snd (main w input_dir output) in
  List.length (stdout st) + List.length (stderr st)
  = files_listed (walk_of w (abspath (getcwd w) input_dir))
    + (if (0 <? skipped_files st)%nat then 2 else 1)
  /\ List.length (opened st) = processed_files st + List.length (stderr st).
Proof.
  intros Hdir Hopen. cbv zeta. unfold main. rewrite Hdir. cbn [negb snd].
  unfold combine_files. rewrite Hopen.
  set (st0 := write _ (write _ (write _ (open_output initial_state)))).
  destruct (walk_reports_once (getcwd w) (abspath (getcwd w) input_dir)
              (abspath (getcwd w) output)
              (walk_of w (abspath (getcwd w) input_dir)) st0) as [Hl Ho].
  set (body := fold_left _ _ st0) in *.
  change (List.length (stdout st0)) with 0 in *.
  change (List.length (stderr st0)) with 0 in *.
  change (List.length (opened st0)) with 0 in *.
  change (processed_files st0) with 0 in *.
  cbn [write print processed_files skipped_files].
  destruct (0 <? skipped_files body)%nat eqn:E;
    cbn [print write processed_files skipped_files stdout stderr opened];
    rewrite ?E, !length_app; cbn [List.length]; lia.
Qed.

(** ** Runs that open no output file, and runs without files *)

(** X4: the program never fails silently and never reads before it can
    write.  A run opens the output file exactly when the input is a
    directory and the open succeeds.  A run that does not open it has
    opened no input file, counted nothing and printed nothing on standard
    output, and its diagnostic stream holds exactly one line: the line
    naming the input directory, with exit status 1, when the input is not
    a directory; the line naming the output file and the error, with exit
    status 0, when it is the output that cannot be opened. *)
Theorem unopened_output_means_one_report (w : world)
    (input_dir output : string) :
  let st := snd (main w input_dir output) in
  (outfile st = None <-> isdir w = false \/ output_error w <> None)
  /\ (outfile st = None ->
      opened st = [] /\ stdout st = []
      /\ processed_files st = 0 /\ skipped_files st = 0)
  /\ (isdir w = false ->
      fst (main w input_dir output) = 1%Z
      /\ stderr st = ["Error: Input directory '" ++ input_dir
                      ++ "' not found or is not a directory."])
  /\ (forall e, isdir w = true -> output_error w = Some e ->
      fst (main w input_dir output) = 0%Z
      /\ stderr st = ["Error opening or writing to output file " ++ output
                      ++ ": " ++ e]).
Proof.
  cbv zeta. unfold main.
  destruct (isdir w) eqn:Hdir; cbn [negb fst snd].
  - destruct (output_error w) as [e|] eqn:Hopen.
    + unfold combine_files. rewrite Hopen. split; [|split; [|split]].
      * split; [intros _; right; discriminate | reflexivity].
      * intros _. cbn. repeat split.
      * discriminate.
      * intros e' _ He'. inversion He'. subst e'. split; reflexivity.
    + destruct (combine_files_completes w input_dir output initial_state Hopen)
        as (body & Hbody).
      rewrite Hbody. split; [|split; [|split]].
      * split; [discriminate | intros [H | H]; [discriminate | congruence]].
      * discriminate.
      * discriminate.
      * discriminate.
  - split; [|split; [|split]].
    + split; [intros _; now left | reflexivity].
    + intros _. cbn. repeat split.
    + intros _. split; reflexivity.
    + discriminate.
Qed.

Lemma walk_without_files (cwd abs_input_dir abs_output_file : string)
    (items : list walk_item) (st : state) :
  files_listed items = 0 ->
  fold_left (process_dir cwd abs_input_dir abs_output_file) items st = st.
Proof.
  revert st. induction items as [|[[dirpath ds] fs] items IH]; intros st H;
    [reflexivity|].
  rewrite files_listed_cons in H. cbn [snd] in H.
  destruct fs; [|simpl in H; lia].
  cbn [fold_left process_dir]. apply IH. simpl in H. lia.
Qed.

(** X5: with nothing to list the run still succeeds.  When the input is
    missing, is not a directory, is empty, or holds files only inside
    ignored subdirectories, [combine_files] writes the header directly
    followed by the footer, reports zero files combined, prints no skip
    line and reads nothing. *)
Theorem run_without_files (w : world) (input_dir output_file : string) :
  output_error w = None ->
  match input_node w with
  | Some n => files_encountered n = 0
  | None => True
  end ->
  combine_files w input_dir output_file initial_state
  = mkState
      (Some (header (abspath (getcwd w) input_dir)
                    (abspath (getcwd w) output_file) ++ footer))
      [nl ++ "Successfully combined 0 files into '" ++ output_file ++ "'."]
      [] [] 0 0.
Proof.
  intros Hopen Hfiles. unfold combine_files. rewrite Hopen.
  rewrite walk_without_files.
  - unfold print, write, open_output, initial_state.
    cbn [outfile stdout stderr opened processed_files skipped_files app].
    change (0 <? 0)%nat with false. cbv iota.
    unfold header, footer. f_equal.
    f_equal. rewrite !append_assoc. reflexivity.
  - unfold walk_of. destruct (input_node w) as [n|]; [|reflexivity].
    now rewrite files_listed_os_walk.
Qed.

(** ** Where the output goes does not matter *)

Lemma process_file_forget (cwd abs_input_dir abs_output_file dirpath : string)
    (f : string * read_outcome) (st : state) :
  forget_output (process_file cwd abs_input_dir abs_output_file dirpath f st)
  = process_file cwd abs_input_dir abs_output_file dirpath f (forget_output st).
Proof.
  destruct f as [filename r]. unfold process_file.
  destruct (str_in filename IGNORED_FILES); [reflexivity|].
  destruct (str_in _ IGNORED_EXTENSIONS); [reflexivity|].
  destruct (_ =? abs_output_file); [reflexivity|].
  destruct r; reflexivity.
Qed.

Lemma process_file_other_output (cwd abs_input_dir out1 out2 dirpath : string)
    (f : string * read_outcome) (st : state) :
  abspath cwd (join dirpath (fst f)) <> out1 ->
  abspath cwd (join dirpath (fst f)) <> out2 ->
  process_file cwd abs_input_dir out1 dirpath f st
  = process_file cwd abs_input_dir out2 dirpath f st.
Proof.
  destruct f as [filename r]. cbn [fst]. intros H1 H2.
  apply String.eqb_neq in H1, H2. unfold process_file. now rewrite H1, H2.
Qed.

Lemma walk_other_output (cwd abs_input_dir out1 out2 : string)
    (items : list walk_item) (st1 st2 : state) :
  (forall dirpath ds fs f,
     In (dirpath, ds, fs) items -> In f fs ->
     abspath cwd (join dirpath (fst f)) <> out1
     /\ abspath cwd (join dirpath (fst f)) <> out2) ->
  forget_output st1 = forget_output st2 ->
  forget_output (fold_left (process_dir cwd abs_input_dir out1) items st1)
  = forget_output (fold_left (process_dir cwd abs_input_dir out2) items st2).
Proof.
  revert st1 st2.
  induction items as [|[[dirpath ds] fs] items IH]; intros st1 st2 Hout Hst;
    cbn [fold_left]; [exact Hst|].
  apply IH.
  { intros d' ds' fs' f' Hi Hf. apply (Hout d' ds' fs' f'); [now right | exact Hf]. }
  assert (Hfs : forall f, In f fs ->
            abspath cwd (join dirpath (fst f)) <> out1
            /\ abspath cwd (join dirpath (fst f)) <> out2)
    by (intros f Hf; apply (Hout dirpath ds fs f); [now left | exact Hf]).
  clear IH Hout. unfold process_dir.
  revert st1 st2 Hst. induction fs as [|f fs IHf]; intros st1 st2 Hst;
    cbn [fold_left]; [exact Hst|].
  apply IHf; [intros f' Hf'; apply Hfs; now right|].
  destruct (Hfs f (or_introl eq_refl)) as [H1 H2].
  rewrite !process_file_forget, Hst.
  now rewrite (process_file_other_output cwd abs_input_dir out1 out2 dirpath f _ H1 H2).
Qed.

Lemma flat_map_agree {A B : Type} (f g : A -> list B) (l : list A) :
  (forall a, In a l -> f a = g a) -> flat_map f l = flat_map g l.
Proof.
  induction l as [|a l IH]; intros H; [reflexivity|].
  cbn [flat_map]. rewrite (H a (or_introl eq_refl)), IH; [reflexivity|].
  intros b Hb. apply H. now right.
Qed.

Lemma records_other_output (cwd abs_input_dir out1 out2 : string)
    (items : list walk_item) :
  (forall dirpath ds fs f,
     In (dirpath, ds, fs) items -> In f fs ->
     abspath cwd (join dirpath (fst f)) <> out1
     /\ abspath cwd (join dirpath (fst f)) <> out2) ->
  records_of cwd abs_input_dir out1 items
  = records_of cwd abs_input_dir out2 items.
Proof.
  intros Hout. unfold records_of.
  apply flat_map_agree. intros [[dirpath ds] fs] Hitem.
  unfold records_of_item. cbn [fst snd].
  apply flat_map_agree. intros f Hf.
  destruct (Hout dirpath ds fs f Hitem Hf) as [H1 H2].
  apply String.eqb_neq in H1, H2.
  unfold is_candidate. now rewrite H1, H2.
Qed.

(** X6: two runs over the same tree that write to different files, none
    of which is one of the files listed, produce the same output but for
    the header line naming the output file: the records between header
    and footer, both counters, the files opened and the error reports are
    the same. *)
Theorem output_name_does_not_change_the_records (w : world)
    (input_dir output1 output2 : string) :
  isdir w = true ->
  output_error w = None ->
  let cwd := getcwd w in
  let abs_input_dir := abspath cwd input_dir in
  (forall dirpath ds fs f,
     In (dirpath, ds, fs) (walk_of w abs_input_dir) -> In f fs ->
     abspath cwd (join dirpath (fst f)) <> abspath cwd output1
     /\ abspath cwd (join dirpath (fst f)) <> abspath cwd output2) ->
  let st1 := snd (main w input_dir output1) in
  let st2 := snd (main w input_dir output2) in
  (exists body,
     outfile st1
     = Some (header abs_input_dir (abspath cwd output1) ++ body ++ footer)
     /\ outfile st2
        = Some (header abs_input_dir (abspath cwd output2) ++ body ++ footer))
  /\ processed_files st1 = processed_files st2
  /\ skipped_files st1 = skipped_files st2
  /\ opened st1 = opened st2
  /\ stderr st1 = stderr st2.
Proof.
  intros Hdir Hopen cwd abs_input_dir Hout. cbv zeta. split.
  - exists (render_records
              (records_of cwd abs_input_dir (abspath cwd output1)
                 (walk_of w abs_input_dir))).
    split.
    + unfold main. rewrite Hdir. cbn [negb snd].
      now apply combine_files_outfile.
    + rewrite (records_other_output _ _ _ _ _ Hout).
      unfold main. rewrite Hdir. cbn [negb snd].
      now apply combine_files_outfile.
  - unfold main. rewrite Hdir. cbn [negb snd]. unfold combine_files.
    rewrite Hopen.
    pose proof (walk_other_output cwd abs_input_dir (abspath cwd output1)
                  (abspath cwd output2) (walk_of w abs_input_dir)
                  (write ("# --- START OF COMBINED CONTENT ---" ++ nl ++ nl)
                     (write ("# Output file: " ++ abspath cwd output1 ++ nl)
                        (write ("# Combined content from directory: "
                                ++ abs_input_dir ++ nl)
                           (open_output initial_state))))
                  (write ("# --- START OF COMBINED CONTENT ---" ++ nl ++ nl)
                     (write ("# Output file: " ++ abspath cwd output2 ++ nl)
                        (write ("# Combined content from directory: "
                                ++ abs_input_dir ++ nl)
                           (open_output initial_state))))
                  Hout eq_refl) as Hsame.
    fold cwd. fold abs_input_dir.
    set (b1 := fold_left (process_dir cwd abs_input_dir (abspath cwd output1)) _ _) in *.
    set (b2 := fold_left (process_dir cwd abs_input_dir (abspath cwd output2)) _ _) in *.
    assert (Hp : processed_files b1 = processed_files b2)
      by exact (f_equal processed_files Hsame).
    assert (Hs : skipped_files b1 = skipped_files b2)
      by exact (f_equal skipped_files Hsame).
    assert (Ho : opened b1 = opened b2) by exact (f_equal opened Hsame).
    assert (He : stderr b1 = stderr b2) by exact (f_equal stderr Hsame).
    cbn [write print skipped_files]. rewrite Hs.
    destruct (0 <? skipped_files b2)%nat; cbn; auto.
Qed.

(** ** The paths the walk builds *)

Lemma concat_snoc (l : list string) (c : string) :
  l <> [] ->
  String.concat "/" (l ++ [c]) = String.concat "/" l ++ "/" ++ c.
Proof.
  induction l as [|x l IH]; intros Hne; [congruence|].
  destruct l as [|y l'].
  - reflexivity.
  - change (String.concat "/" ((x :: y :: l') ++ [c]))
      with (x ++ "/" ++ String.concat "/" ((y :: l') ++ [c])).
    rewrite IH by discriminate.
    change (String.concat "/" (x :: y :: l'))
      with (x ++ "/" ++ String.concat "/" (y :: l')).
    now rewrite !append_assoc.
Qed.

Lemma endswith_char_append (a b : string) (c : ascii) :
  b <> "" -> endswith_char (a ++ b) c = endswith_char b c.
Proof.
  intros Hb. induction a as [|x a IH]; [reflexivity|].
  cbn [append]. destruct (a ++ b) eqn:E.
  - destruct a; [cbn in E; congruence | discriminate].
  - cbn [endswith_char]. now rewrite <- IH.
Qed.

Lemma endswith_char_absent (b : string) (c : ascii) :
  has_char c b = false -> endswith_char b c = false.
Proof.
  induction b as [|x b IH]; [reflexivity|].
  cbn [has_char]. intros H. apply orb_false_iff in H as [Hx Hb].
  destruct b; [exact Hx | now apply IH].
Qed.

Lemma clean_not_slash_start (c : string) :
  clean_comp c = true -> startswith c "/" = false.
Proof.
  intros H. apply clean_comp_spec in H as (Hne & _ & _ & Hs).
  destruct c as [|x c]; [congruence|].
  cbn [has_char] in Hs. apply orb_false_iff in Hs as [Hx _].
  rewrite startswith_cons. fold slash. now rewrite Hx.
Qed.

(** Joining a clean name to a normal absolute path adds one component. *)
Lemma join_normal (k : nat) (comps : list string) (c : string) :
  k = 1 \/ k = 2 ->
  Forall (fun x => clean_comp x = true) comps ->
  clean_comp c = true ->
  join (root_of k ++ String.concat "/" comps) c
  = root_of k ++ String.concat "/" (comps ++ [c]).
Proof.
  intros Hk Hcomps Hc. unfold join.
  rewrite (clean_not_slash_start c Hc).
  assert (Hroot : (root_of k ++ String.concat "/" comps =? "") = false)
    by (destruct Hk as [-> | ->]; reflexivity).
  rewrite Hroot. cbn [orb].
  destruct comps as [|x comps'] using rev_ind.
  - destruct Hk as [-> | ->]; reflexivity.
  - clear IHcomps'.
    assert (Hx : clean_comp x = true).
    { apply Forall_app in Hcomps as [_ Hx]. now inversion Hx. }
    apply clean_comp_spec in Hx as (Hne & _ & _ & Hs).
    assert (Hend : endswith_char
                     (root_of k ++ String.concat "/" (comps' ++ [x])) slash
                   = false).
    { destruct comps' as [|y l].
      - cbn [app String.concat]. rewrite endswith_char_append by assumption.
        now apply endswith_char_absent.
      - rewrite concat_snoc by discriminate.
        rewrite <- !append_assoc.
        rewrite endswith_char_append by assumption.
        now apply endswith_char_absent. }
    rewrite Hend.
    rewrite (concat_snoc (comps' ++ [x]) c) by (destruct comps'; discriminate).
    now rewrite append_assoc.
Qed.

Lemma abspath_normal (cwd : string) (k : nat) (comps : list string) :
  k = 1 \/ k = 2 ->
  Forall (fun x => clean_comp x = true) comps ->
  abspath cwd (root_of k ++ String.concat "/" comps)
  = root_of k ++ String.concat "/" comps.
Proof.
  intros Hk Hc. unfold abspath.
  assert (Habs : startswith (root_of k ++ String.concat "/" comps) "/" = true).
  { destruct Hk as [-> | ->]; cbn [root_of append];
      now rewrite startswith_cons, startswith_nil. }
  rewrite Habs. now apply normpath_normal.
Qed.

Lemma clean_is_nonempty (c : string) :
  clean_comp c = true -> negb (c =? "") = true.
Proof.
  intros H. apply clean_comp_spec in H as (Hne & _).
  apply negb_true_iff. now apply String.eqb_neq.
Qed.

Lemma nonempty_comps_normal (k : nat) (comps : list string) :
  k = 1 \/ k = 2 ->
  Forall (fun x => clean_comp x = true) comps ->
  nonempty_comps (root_of k ++ String.concat "/" comps) = comps.
Proof.
  intros Hk Hc. unfold nonempty_comps.
  assert (Hbody : filter (fun x => negb (x =? ""))
                         (split slash (String.concat "/" comps)) = comps).
  { destruct comps as [|c l]; [reflexivity|].
    rewrite split_concat; [| discriminate |].
    - apply forallb_filter_id. apply forallb_forall.
      intros x Hx. apply clean_is_nonempty.
      rewrite Forall_forall in Hc. now apply Hc.
    - eapply Forall_impl; [|exact Hc].
      intros a Ha. now apply clean_comp_spec in Ha. }
  destruct Hk as [-> | ->]; cbn [root_of append split]; exact Hbody.
Qed.

Lemma common_prefix_len_app (l r : list string) :
  common_prefix_len l (l ++ r) = List.length l.
Proof.
  induction l as [|x l IH]; [now destruct r|].
  cbn [app common_prefix_len List.length]. now rewrite String.eqb_refl, IH.
Qed.

Lemma fold_join_clean (names : list string) (acc : string) :
  Forall (fun x => clean_comp x = true) names ->
  acc <> "" ->
  endswith_char acc slash = false ->
  fold_left join names acc = String.concat "/" (acc :: names).
Proof.
  revert acc. induction names as [|c names IH]; intros acc Hn Hne Hend;
    [reflexivity|].
  inversion Hn as [| ? ? Hc Hn']; subst. cbn [fold_left].
  assert (Hj : join acc c = acc ++ "/" ++ c).
  { unfold join. rewrite (clean_not_slash_start c Hc).
    apply String.eqb_neq in Hne. now rewrite Hne, Hend. }
  rewrite Hj.
  apply clean_comp_spec in Hc as (Hcne & _ & _ & Hcs).
  rewrite IH; [| assumption | destruct acc; discriminate |].
  - destruct names; cbn [String.concat]; [reflexivity|].
    now rewrite !append_assoc.
  - change (acc ++ "/" ++ c) with (acc ++ String slash c).
    rewrite endswith_char_append by discriminate.
    cbn [endswith_char]. destruct c; [congruence|].
    now apply (endswith_char_absent (String a c) slash).
Qed.

Lemma join_all_clean (names : list string) :
  Forall (fun x => clean_comp x = true) names ->
  names <> [] ->
  join_all names = String.concat "/" names.
Proof.
  intros Hn Hne. destruct names as [|a names]; [congruence|].
  inversion Hn as [| ? ? Ha Hn']; subst. cbn [join_all].
  apply clean_comp_spec in Ha as (Hane & _ & _ & Has).
  apply fold_join_clean; [assumption | assumption |].
  now apply endswith_char_absent.
Qed.

(** [relpath] undoes [join]: from a normal absolute directory to a path
    below it, the relative path is the names in between. *)
Lemma relpath_below (cwd : string) (k : nat) (comps rest : list string) :
  k = 1 \/ k = 2 ->
  Forall (fun x => clean_comp x = true) comps ->
  Forall (fun x => clean_comp x = true) rest ->
  rest <> [] ->
  relpath cwd (root_of k ++ String.concat "/" (comps ++ rest))
          (root_of k ++ String.concat "/" comps)
  = String.concat "/" rest.
Proof.
  intros Hk Hc Hr Hne. unfold relpath.
  assert (Hall : Forall (fun x => clean_comp x = true) (comps ++ rest))
    by (apply Forall_app; now split).
  rewrite !abspath_normal, !nonempty_comps_normal by assumption.
  rewrite common_prefix_len_app, Nat.sub_diag. cbn [repeat app].
  rewrite skipn_app, skipn_all, Nat.sub_diag. cbn [skipn app].
  destruct rest as [|r rest']; [congruence|].
  now apply join_all_clean.
Qed.

Lemma clean_names_Dir (es : list (string * node)) :
  clean_names (Dir es) = true ->
  Forall (fun e : string * node =>
            clean_comp (fst e) = true /\ clean_names (snd e) = true) es.
Proof.
  cbn [clean_names]. rewrite forallb_forall. intros H.
  apply Forall_forall. intros [name sub] Hin.
  specialize (H _ Hin). cbn in H. now apply andb_true_iff in H.
Qed.

Lemma filenames_clean (es : list (string * node)) :
  Forall (fun e : string * node =>
            clean_comp (fst e) = true /\ clean_names (snd e) = true) es ->
  Forall (fun f : string * read_outcome => clean_comp (fst f) = true)
         (filenames es).
Proof.
  induction es as [| [name [r | sub]] l IHl]; intros H; cbn [filenames].
  - constructor.
  - inversion H as [| ? ? [Hn _] Hl]; subst. constructor; [exact Hn | auto].
  - inversion H; subst. auto.
Qed.

(** In a tree of clean names walked from a normal absolute path, every
    directory path yielded is the root path extended by clean names, and
    every file name listed is clean. *)
Lemma os_walk_paths_normal (prune : list string -> list string) (k : nat)
    (n : node) :
  k = 1 \/ k = 2 ->
  clean_names n = true ->
  forall comps,
    Forall (fun x => clean_comp x = true) comps ->
    Forall (fun item : walk_item =>
              (exists chain,
                 Forall (fun x => clean_comp x = true) chain
                 /\ fst (fst item)
                    = root_of k ++ String.concat "/" (comps ++ chain))
              /\ Forall (fun f : string * read_outcome =>
                           clean_comp (fst f) = true) (snd item))
           (os_walk prune (root_of k ++ String.concat "/" comps) n).
Proof.
  intros Hk. induction n as [r | es IH] using node_induction;
    intros Hclean comps Hcomps; [constructor|].
  apply clean_names_Dir in Hclean.
  rewrite os_walk_Dir. constructor.
  - cbn [fst snd]. split.
    + exists []. split; [constructor | now rewrite app_nil_r].
    + now apply filenames_clean.
  - generalize (prune (dirnames es)) as dirs. intros dirs.
    induction es as [| [d sub] l IHl]; [constructor|].
    inversion IH as [| ? ? Hsub Hl]; subst.
    inversion Hclean as [| ? ? [Hd Hs] Hcl]; subst. cbn [fst snd] in *.
    cbn [flat_map fst snd]. apply Forall_app. split; [|now apply IHl].
    destruct (str_in d dirs); [|constructor].
    rewrite join_normal by assumption.
    specialize (Hsub Hs (comps ++ [d])%list).
    eapply Forall_impl; [|apply Hsub; apply Forall_app; split;
                           [assumption | constructor; [assumption | constructor]]].
    intros item [(chain & Hchain & Hpath) Hfiles]. split; [|exact Hfiles].
    exists (d :: chain). split; [now constructor|].
    now rewrite Hpath, <- app_assoc.
Qed.

Lemma concat_app_sep (l1 l2 : list string) :
  l1 <> [] -> l2 <> [] ->
  String.concat "/" (l1 ++ l2)
  = String.concat "/" l1 ++ "/" ++ String.concat "/" l2.
Proof.
  intros H1 H2. induction l1 as [|x l1 IH]; [congruence|].
  destruct l1 as [|y l1'].
  - destruct l2; [congruence | reflexivity].
  - change (String.concat "/" ((x :: y :: l1') ++ l2))
      with (x ++ "/" ++ String.concat "/" ((y :: l1') ++ l2)).
    rewrite IH by discriminate.
    change (String.concat "/" (x :: y :: l1'))
      with (x ++ "/" ++ String.concat "/" (y :: l1')).
    now rewrite !append_assoc.
Qed.

Lemma normal_no_trailing_slash (k : nat) (comps : list string) :
  Forall (fun x => clean_comp x = true) comps ->
  comps <> [] ->
  endswith_char (root_of k ++ String.concat "/" comps) slash = false.
Proof.
  intros Hc Hne. destruct comps as [|x comps'] using rev_ind; [congruence|].
  clear IHcomps'.
  assert (Hx : clean_comp x = true).
  { apply Forall_app in Hc as [_ Hx]. now inversion Hx. }
  apply clean_comp_spec in Hx as (Hxne & _ & _ & Hs).
  destruct comps' as [|y l].
  - cbn [app String.concat]. rewrite endswith_char_append by assumption.
    now apply endswith_char_absent.
  - rewrite concat_snoc by discriminate.
    rewrite <- !append_assoc.
    rewrite endswith_char_append by assumption.
    now apply endswith_char_absent.
Qed.

(** Joining a relative path of clean names to a normal absolute path
    appends the names. *)
Lemma join_below (k : nat) (comps rest : list string) :
  k = 1 \/ k = 2 ->
  Forall (fun x => clean_comp x = true) comps ->
  Forall (fun x => clean_comp x = true) rest ->
  rest <> [] ->
  join (root_of k ++ String.concat "/" comps) (String.concat "/" rest)
  = root_of k ++ String.concat "/" (comps ++ rest).
Proof.
  intros Hk Hc Hr Hne. unfold join.
  rewrite (concat_clean_head rest Hr).
  assert (Hroot : (root_of k ++ String.concat "/" comps =? "") = false)
    by (destruct Hk as [-> | ->]; reflexivity).
  rewrite Hroot. cbn [orb].
  destruct comps as [|c comps'].
  - destruct Hk as [-> | ->]; reflexivity.
  - rewrite normal_no_trailing_slash by (assumption || discriminate).
    rewrite concat_app_sep by (assumption || discriminate).
    now rewrite append_assoc.
Qed.

Lemma startswith_append_self (a b : string) : startswith (a ++ b) a = true.
Proof.
  induction a as [|x a IH]; [apply startswith_nil|].
  cbn [append]. now rewrite startswith_cons, Ascii.eqb_refl, IH.
Qed.

Lemma normal_below_starts_with (k : nat) (comps rest : list string) :
  startswith (root_of k ++ String.concat "/" (comps ++ rest))
             (root_of k ++ String.concat "/" comps) = true.
Proof.
  destruct comps as [|c comps'].
  - cbn [app String.concat]. rewrite append_nil_r. apply startswith_append_self.
  - destruct rest as [|r rest'].
    + rewrite app_nil_r.
      rewrite <- (append_nil_r (root_of k ++ String.concat "/" (c :: comps'))) at 1.
      apply startswith_append_self.
    + rewrite concat_app_sep by discriminate.
      rewrite <- append_assoc. apply startswith_append_self.
Qed.

Lemma fold_join_normal (k : nat) (chain comps : list string) :
  k = 1 \/ k = 2 ->
  Forall (fun x => clean_comp x = true) comps ->
  Forall (fun x => clean_comp x = true) chain ->
  fold_left join chain (root_of k ++ String.concat "/" comps)
  = root_of k ++ String.concat "/" (comps ++ chain).
Proof.
  intros Hk. revert comps. induction chain as [|c chain IH]; intros comps Hc Hch.
  - now rewrite app_nil_r.
  - inversion Hch; subst. cbn [fold_left].
    rewrite join_normal by assumption.
    rewrite IH; [now rewrite <- app_assoc | | assumption].
    apply Forall_app. split; [assumption | now constructor].
Qed.

(** The shape of every path the loop builds, for an absolute working
    directory and a tree of clean names. *)
Lemma listed_file_path_shape (w : world) (input_dir : string)
    (dirpath : string) (ds : list string) (fs : list (string * read_outcome))
    (f : string * read_outcome) :
  startswith (getcwd w) "/" = true ->
  match input_node w with
  | Some n => clean_names n = true
  | None => True
  end ->
  In (dirpath, ds, fs) (walk_of w (abspath (getcwd w) input_dir)) ->
  In f fs ->
  exists k comps chain,
    (k = 1 \/ k = 2)
    /\ Forall (fun x => clean_comp x = true) comps
    /\ Forall (fun x => clean_comp x = true) (chain ++ [fst f])
    /\ abspath (getcwd w) input_dir = root_of k ++ String.concat "/" comps
    /\ dirpath = root_of k ++ String.concat "/" (comps ++ chain)
    /\ join dirpath (fst f)
       = root_of k ++ String.concat "/" (comps ++ (chain ++ [fst f])).
Proof.
  intros Hcwd Hclean Hitem Hf.
  unfold walk_of in Hitem.
  destruct (input_node w) as [n|]; [|contradiction].
  destruct (normpath_absolute _ (abspath_argument_absolute (getcwd w) input_dir Hcwd))
    as (k & comps & Hk & Hcomps & Hnorm).
  fold (abspath (getcwd w) input_dir) in Hnorm.
  rewrite Hnorm in Hitem.
  pose proof (os_walk_paths_normal prune_dirs k n Hk Hclean comps Hcomps) as Hall.
  rewrite Forall_forall in Hall.
  destruct (Hall _ Hitem) as [(chain & Hchain & Hpath) Hfiles].
  cbn [fst snd] in Hpath, Hfiles.
  rewrite Forall_forall in Hfiles. specialize (Hfiles _ Hf).
  exists k, comps, chain. split; [exact Hk|]. split; [exact Hcomps|].
  split; [apply Forall_app; split; [exact Hchain | now constructor]|].
  split; [exact Hnorm|]. split; [exact Hpath|].
  rewrite Hpath, join_normal; try assumption.
  - now rewrite <- app_assoc.
  - apply Forall_app. now split.
Qed.

(** X7: the relative path written in the markers names the file.  With
    an absolute working directory and a tree of ordinary names, for every
    file the walk lists the joined path is already absolute and normal
    ([abspath] leaves it alone), the relative path is the names of the
    directories walked through from the root followed by the file name,
    joined by single slashes, and joining it back to the root gives the
    file path again. *)
Theorem relative_path_names_the_file (w : world) (input_dir : string)
    (dirpath : string) (ds : list string) (fs : list (string * read_outcome))
    (f : string * read_outcome) :
  startswith (getcwd w) "/" = true ->
  match input_node w with
  | Some n => clean_names n = true
  | None => True
  end ->
  let cwd := getcwd w in
  let abs_input_dir := abspath cwd input_dir in
  In (dirpath, ds, fs) (walk_of w abs_input_dir) ->
  In f fs ->
  let file_path := join dirpath (fst f) in
  let relative_path := relpath cwd file_path abs_input_dir in
  abspath cwd file_path = file_path
  /\ join abs_input_dir relative_path = file_path
  /\ exists chain,
       Forall (fun x => clean_comp x = true) chain
       /\ relative_path = String.concat "/" (chain ++ [fst f])
       /\ dirpath = fold_left join chain abs_input_dir.
Proof.
  intros Hcwd Hclean cwd abs_input_dir Hitem Hf. cbv zeta.
  destruct (listed_file_path_shape w input_dir dirpath ds fs f
              Hcwd Hclean Hitem Hf)
    as (k & comps & chain & Hk & Hcomps & Hrest & Hroot & Hdir & Hpath).
  fold cwd in Hroot. fold abs_input_dir in Hroot.
  assert (Hne : (chain ++ [fst f])%list <> []) by (destruct chain; discriminate).
  rewrite Hpath, Hroot.
  rewrite relpath_below by assumption.
  split; [|split].
  - apply abspath_normal; [assumption|]. apply Forall_app. now split.
  - now apply join_below.
  - exists chain. apply Forall_app in Hrest as [Hchain Hname].
    split; [exact Hchain|]. split; [reflexivity|].
    now rewrite fold_join_normal.
Qed.

(** ** What gets opened *)

Lemma process_file_opened (cwd abs_input_dir abs_output_file dirpath : string)
    (f : string * read_outcome) (st : state) :
  opened (process_file cwd abs_input_dir abs_output_file dirpath f st)
  = opened st
  \/ opened (process_file cwd abs_input_dir abs_output_file dirpath f st)
     = (opened st ++ [join dirpath (fst f)])%list.
Proof.
  destruct f as [filename r]. unfold process_file. cbn [fst].
  destruct (str_in filename IGNORED_FILES); [now left|].
  destruct (str_in _ IGNORED_EXTENSIONS); [now left|].
  destruct (_ =? abs_output_file); [now left|].
  right. now destruct r.
Qed.

Lemma walk_opens_listed (cwd abs_input_dir abs_output_file : string)
    (Q : string -> Prop) (items : list walk_item) (st : state) :
  (forall dirpath ds fs f,
     In (dirpath, ds, fs) items -> In f fs -> Q (join dirpath (fst f))) ->
  Forall Q (opened st) ->
  Forall Q
    (opened (fold_left (process_dir cwd abs_input_dir abs_output_file) items st)).
Proof.
  revert st. induction items as [|[[dirpath ds] fs] items IH]; intros st HQ Hst;
    cbn [fold_left]; [exact Hst|].
  apply IH.
  { intros d' ds' fs' f' Hi Hf. apply (HQ d' ds' fs' f'); [now right | exact Hf]. }
  assert (Hfs : forall f, In f fs -> Q (join dirpath (fst f)))
    by (intros f Hf; apply (HQ dirpath ds fs f); [now left | exact Hf]).
  clear IH HQ. unfold process_dir.
  revert st Hst. induction fs as [|f fs IHf]; intros st Hst; cbn [fold_left];
    [exact Hst|].
  apply IHf; [intros f' Hf'; apply Hfs; now right|].
  destruct (process_file_opened cwd abs_input_dir abs_output_file dirpath f st)
    as [-> | ->]; [exact Hst|].
  apply Forall_app. split; [exact Hst|].
  constructor; [apply Hfs; now left | constructor].
Qed.

(** X8: the program opens nothing but files the walk listed.  Every path
    handed to [open] for reading is the directory path of a yielded item
    joined with one of its file names; with an absolute working directory
    and a tree of ordinary names that path is absolute and normal and
    begins with the absolute input directory. *)
Theorem only_listed_files_are_opened (w : world) (input_dir output : string)
    (p : string) :
  startswith (getcwd w) "/" = true ->
  match input_node w with
  | Some n => clean_names n = true
  | None => True
  end ->
  let cwd := getcwd w in
  let abs_input_dir := abspath cwd input_dir in
  In p (opened (snd (main w input_dir output))) ->
  (exists dirpath ds fs f,
     In (dirpath, ds, fs) (walk_of w abs_input_dir)
     /\ In f fs /\ p = join dirpath (fst f))
  /\ abspath cwd p = p
  /\ startswith p abs_input_dir = true.
Proof.
  intros Hcwd Hclean cwd abs_input_dir. revert p. apply Forall_forall.
  unfold main. destruct (isdir w); cbn [negb snd]; [|constructor].
  destruct (output_error w) eqn:Hopen.
  { unfold combine_files. rewrite Hopen. constructor. }
  rewrite combine_files_opened by assumption.
  apply walk_opens_listed; [|constructor].
  intros dirpath ds fs f Hitem Hf.
  split; [exists dirpath, ds, fs, f; auto|].
  destruct (listed_file_path_shape w input_dir dirpath ds fs f
              Hcwd Hclean Hitem Hf)
    as (k & comps & chain & Hk & Hcomps & Hrest & Hroot & Hdir & Hpath).
  fold cwd in Hroot. fold abs_input_dir in Hroot.
  rewrite Hpath, Hroot. split.
  - apply abspath_normal; [assumption|]. apply Forall_app. now split.
  - apply normal_below_starts_with.
Qed.

(** ** Descent *)

(** X9: the walk of a directory contains the whole walk of each of its
    subdirectories whose name is not in [IGNORED_DIRS], at the joined
    path, whatever else that name looks like (an ignored file name, an
    ignored extension); and it contains nothing else besides the
    directory itself and the walks of such subdirectories. *)
Theorem walk_is_root_plus_subwalks (top : string) (es : list (string * node))
    (item : walk_item) :
  In item (os_walk prune_dirs top (Dir es))
  <-> item = (top, dirnames es, filenames es)
      \/ exists d sub,
           In (d, sub) es
           /\ str_in d IGNORED_DIRS = false
           /\ In item (os_walk prune_dirs (join top d) sub).
Proof.
  rewrite os_walk_Dir. cbn [In]. split.
  - intros [H | H]; [left; now symmetry|]. right.
    apply in_flat_map in H as ([d sub] & Hin & Hitem). cbn [fst snd] in Hitem.
    destruct (str_in d (prune_dirs (dirnames es))) eqn:Hd; [|contradiction].
    exists d, sub. split; [exact Hin|]. split; [|exact Hitem].
    unfold prune_dirs in Hd. rewrite str_in_filter in Hd.
    apply andb_true_iff in Hd as [Hd _]. now apply negb_true_iff in Hd.
  - intros [H | (d & sub & Hin & Hd & Hitem)]; [left; now symmetry|]. right.
    apply in_flat_map. exists (d, sub). split; [exact Hin|]. cbn [fst snd].
    destruct sub as [r | sub]; [contradiction|].
    now rewrite (subdir_is_walked d sub es Hin), Hd.
Qed.

(** ** [splitext] *)

Lemma rfind_negative_absent (c : ascii) (s : string) :
  (rfind s c < 0)%Z -> has_char c s = false.
Proof.
  induction s as [|a s IH]; [reflexivity|]. cbn [rfind has_char].
  pose proof (rfind_lower_bound c s) as Hlo.
  destruct (0 <=? rfind s c)%Z eqn:E.
  - apply Z.leb_le in E. lia.
  - apply Z.leb_gt in E. destruct (Ascii.eqb a c); [lia|].
    intros _. now apply IH.
Qed.

(** The last occurrence found by [rfind] cuts the string in two. *)
Lemma rfind_found (c : ascii) (s : string) :
  (0 <= rfind s c)%Z ->
  exists a b,
    s = a ++ String c b
    /\ Z.of_nat (length a) = rfind s c
    /\ has_char c b = false.
Proof.
  induction s as [|x s IH]; cbn [rfind]; [lia|].
  destruct (0 <=? rfind s c)%Z eqn:E.
  - apply Z.leb_le in E. intros _.
    destruct (IH E) as (a & b & -> & Hlen & Hb).
    exists (String x a), b. repeat split; [|exact Hb].
    cbn [length]. lia.
  - apply Z.leb_gt in E. destruct (Ascii.eqb_spec x c) as [-> | Hx]; [|lia].
    intros _. exists "", s. repeat split. now apply rfind_negative_absent.
Qed.

Lemma rfind_append (c : ascii) (a b : string) :
  rfind (a ++ b) c
  = if (0 <=? rfind b c)%Z then (Z.of_nat (length a) + rfind b c)%Z
    else rfind a c.
Proof.
  induction a as [|x a IH].
  - cbn [append length rfind]. destruct (0 <=? rfind b c)%Z eqn:E; [lia|].
    pose proof (rfind_lower_bound c b). apply Z.leb_gt in E. lia.
  - cbn [append rfind length]. rewrite IH.
    destruct (0 <=? rfind b c)%Z eqn:E.
    + apply Z.leb_le in E.
      assert ((0 <=? Z.of_nat (length a) + rfind b c)%Z = true) as ->
        by (apply Z.leb_le; lia).
      lia.
    + reflexivity.
Qed.

Lemma rfind_present (c : ascii) (s : string) :
  has_char c s = true -> (0 <= rfind s c)%Z.
Proof.
  intros H. destruct (Z.lt_ge_cases (rfind s c) 0) as [Hneg | Hpos]; [|lia].
  apply rfind_negative_absent in Hneg. congruence.
Qed.

Lemma substring_prefix (a b : string) : substring 0 (length a) (a ++ b) = a.
Proof.
  induction a as [|x a IH]; cbn [length append substring].
  - now destruct b.
  - now rewrite IH.
Qed.

Lemma substring_suffix (a b : string) :
  substring (length a) (length b) (a ++ b) = b.
Proof.
  induction a as [|x a IH]; cbn [length append substring]; [|exact IH].
  induction b as [|y b IHb]; [reflexivity|].
  cbn [length substring]. now rewrite IHb.
Qed.

(** X10: [splitext] cuts a path without losing anything: root and
    extension put together are the path again, and the extension is
    either empty or one dot followed by characters among which there is
    neither a dot nor a separator. *)
Theorem splitext_splits (p : string) :
  fst (splitext p) ++ snd (splitext p) = p
  /\ (snd (splitext p) = ""
      \/ exists rest,
           snd (splitext p) = String dot rest
           /\ has_char dot rest = false
           /\ has_char slash rest = false).
Proof.
  unfold splitext.
  destruct ((rfind p slash <? rfind p dot)%Z && _) eqn:E; cbn [fst snd].
  2:{ split; [apply append_nil_r | now left]. }
  apply andb_true_iff in E as [Hlt _]. apply Z.ltb_lt in Hlt.
  pose proof (rfind_lower_bound slash p) as Hlo.
  destruct (rfind_found dot p ltac:(lia)) as (a & b & Hp & Hlen & Hb).
  assert (Hto : slice_to p (rfind p dot) = a).
  { unfold slice_to. rewrite <- Hlen, Nat2Z.id. rewrite Hp at 1.
    apply substring_prefix. }
  assert (Hfrom : slice_from p (rfind p dot) = String dot b).
  { unfold slice_from. rewrite <- Hlen, Nat2Z.id. rewrite Hp at 1 2.
    rewrite length_append.
    replace (length a + length (String dot b) - length a)
      with (length (String dot b)) by lia.
    apply substring_suffix. }
  rewrite Hto, Hfrom. split; [now symmetry|].
  right. exists b. split; [reflexivity|]. split; [exact Hb|].
  destruct (has_char slash b) eqn:Hs; [|reflexivity].
  exfalso. apply rfind_present in Hs.
  assert (Hsep : rfind p slash
                 = (Z.of_nat (length a) + (rfind b slash + 1))%Z).
  { rewrite Hp at 1. rewrite rfind_append. cbn [rfind].
    assert ((0 <=? rfind b slash)%Z = true) as -> by (apply Z.leb_le; lia).
    assert ((0 <=? rfind b slash + 1)%Z = true) as -> by (apply Z.leb_le; lia).
    reflexivity. }
  lia.
Qed.

Lemma substring_at (pre : string) (x : ascii) (r : string) :
  substring (length pre) 1 (pre ++ String x r) = String x "".
Proof.
  induction pre as [|y pre IH]; cbn [length append substring]; [|exact IH].
  now destruct r.
Qed.

Lemma splitext_scan_finds (stem : string) :
  has_other_char dot stem = true ->
  forall pre tail n,
    length stem <= n ->
    splitext_scan (pre ++ stem ++ tail)
      (Z.of_nat (length pre + length stem)) n (Z.of_nat (length pre))
    = true.
Proof.
  induction stem as [|x stem IH]; intros Hother pre tail n Hn; [discriminate|].
  cbn [has_other_char length] in *.
  destruct n as [|n]; [lia|]. cbn [splitext_scan].
  assert ((Z.of_nat (length pre) <? Z.of_nat (length pre + S (length stem)))%Z
          = true) as -> by (apply Z.ltb_lt; lia).
  unfold slice1. rewrite Nat2Z.id. cbn [append]. rewrite substring_at.
  change (String x "" =? ".") with (Ascii.eqb x dot && true).
  rewrite andb_true_r.
  destruct (Ascii.eqb x dot) eqn:Hx; cbn [negb]; [|reflexivity].
  cbn [negb orb] in Hother.
  specialize (IH Hother (pre ++ String x "") tail n ltac:(lia)).
  rewrite length_append in IH. cbn [length] in IH.
  rewrite append_assoc in IH. cbn [append] in IH.
  replace (length pre + 1 + length stem) with (length pre + S (length stem)) in IH
    by lia.
  replace (Z.of_nat (length pre) + 1)%Z with (Z.of_nat (length pre + 1)) by lia.
  exact IH.
Qed.

Lemma has_char_append (c : ascii) (a b : string) :
  has_char c (a ++ b) = has_char c a || has_char c b.
Proof.
  induction a as [|x a IH]; cbn [append has_char]; [reflexivity|].
  now rewrite IH, orb_assoc.
Qed.

(** A name made of a stem that is not only dots, one dot and a dot-free
    rest is cut at that dot. *)
Lemma splitext_name (stem rest : string) :
  has_char slash stem = false ->
  has_char slash rest = false ->
  has_char dot rest = false ->
  has_other_char dot stem = true ->
  splitext (stem ++ String dot rest) = (stem, String dot rest).
Proof.
  intros Hss Hsr Hdr Hother. unfold splitext.
  assert (Hsep : rfind (stem ++ String dot rest) slash = (-1)%Z).
  { apply rfind_absent. rewrite has_char_append, Hss. cbn [has_char].
    now rewrite Hsr. }
  assert (Hdot : rfind (stem ++ String dot rest) dot = Z.of_nat (length stem)).
  { assert (H0 : rfind (String dot rest) dot = 0%Z)
      by (cbn [rfind]; rewrite (rfind_absent _ _ Hdr); reflexivity).
    rewrite rfind_append, H0. change (0 <=? 0)%Z with true. cbv iota. lia. }
  rewrite Hsep, Hdot.
  assert ((-1 <? Z.of_nat (length stem))%Z = true) as -> by (apply Z.ltb_lt; lia).
  pose proof (splitext_scan_finds stem Hother "" (String dot rest)
                (Z.to_nat (Z.of_nat (length stem) - -1)) ltac:(lia)) as Hscan.
  cbn [append length Nat.add] in Hscan.
  change (-1 + 1)%Z with 0%Z. change (Z.of_nat 0) with 0%Z in Hscan.
  rewrite Hscan. cbn [andb].
  unfold slice_to, slice_from. rewrite Nat2Z.id.
  rewrite substring_prefix, length_append.
  replace (length stem + length (String dot rest) - length stem)
    with (length (String dot rest)) by lia.
  now rewrite substring_suffix.
Qed.

Lemma lower_char_keeps_marks (a : ascii) :
  Ascii.eqb (lower_char a) dot = Ascii.eqb a dot
  /\ Ascii.eqb (lower_char a) slash = Ascii.eqb a slash.
Proof.
  destruct a as [[] [] [] [] [] [] [] []]; split; reflexivity.
Qed.

Lemma has_char_lower (s : string) :
  has_char dot (lower s) = has_char dot s
  /\ has_char slash (lower s) = has_char slash s.
Proof.
  induction s as [|a s [IHd IHs]]; [split; reflexivity|].
  cbn [lower has_char]. destruct (lower_char_keeps_marks a) as [-> ->].
  now rewrite IHd, IHs.
Qed.

(** Every ignored extension is one dot followed by characters without a
    dot or a separator, and so is every spelling of it in other case. *)
Lemma ignored_extension_shape (ext : string) :
  str_in (lower ext) IGNORED_EXTENSIONS = true ->
  exists rest,
    ext = String dot rest
    /\ has_char dot rest = false /\ has_char slash rest = false.
Proof.
  intros H. apply str_in_In in H.
  assert (Hshape : exists r', lower ext = String dot r'
                     /\ has_char dot r' = false /\ has_char slash r' = false).
  { simpl in H.
    repeat (destruct H as [<- | H];
            [eexists; split; [reflexivity | split; reflexivity]|]).
    contradiction. }
  destruct Hshape as (r' & Hl & Hd & Hs).
  destruct ext as [|x rest]; [discriminate|].
  cbn [lower] in Hl. inversion Hl as [[Hx Hr]].
  exists rest.
  destruct (has_char_lower rest) as [Hd' Hs']. rewrite Hr in Hd', Hs'.
  split; [|split; congruence].
  f_equal. destruct (lower_char_keeps_marks x) as [Hxd _].
  rewrite Hx, Ascii.eqb_refl in Hxd. symmetry in Hxd.
  apply Ascii.eqb_eq in Hxd. congruence.
Qed.

(** X11: a file whose name ends in an ignored extension, in any mix of
    upper and lower case, after a stem that is not made of dots only, is
    skipped without being opened: [splitext] cuts the name at that
    extension, and the loop body counts one skip, with the message of the
    name filter when the whole name is an ignored file name and the
    message of the extension filter otherwise. *)
Theorem ignored_extension_in_any_case (stem ext : string) :
  has_char slash stem = false ->
  has_other_char dot stem = true ->
  str_in (lower ext) IGNORED_EXTENSIONS = true ->
  let filename := stem ++ ext in
  splitext filename = (stem, ext)
  /\ forall cwd abs_input_dir abs_output_file dirpath r st,
       process_file cwd abs_input_dir abs_output_file dirpath (filename, r) st
       = incr_skipped
           (print ((if str_in filename IGNORED_FILES
                    then "Skipping ignored file: "
                    else "Skipping file with ignored extension: ")
                   ++ filename) st).
Proof.
  intros Hss Hother Hext filename.
  destruct (ignored_extension_shape ext Hext) as (rest & Hshape & Hd & Hs).
  assert (Hsplit : splitext filename = (stem, ext)).
  { unfold filename. rewrite Hshape. now apply splitext_name. }
  split; [exact Hsplit|].
  intros. unfold process_file.
  destruct (str_in filename IGNORED_FILES); [reflexivity|].
  rewrite Hsplit. cbn [snd]. now rewrite Hext.
Qed.

(** ** The text between the markers *)

Lemma high_byte_is_not_CR (a : ascii) :
  (byte_val a <? 128)%nat = false -> Ascii.eqb a CR = false.
Proof.
  intros H. apply Ascii.eqb_neq. intros ->. discriminate H.
Qed.

Lemma cont_byte_is_not_CR (a : ascii) :
  is_cont a = true -> Ascii.eqb a CR = false.
Proof.
  intros H. apply Ascii.eqb_neq. intros ->. discriminate H.
Qed.

Lemma universal_newlines_other (c : ascii) (r : string) :
  Ascii.eqb c CR = false ->
  universal_newlines (String c r) = String c (universal_newlines r).
Proof. intros H. cbn [universal_newlines]. now rewrite H. Qed.

Lemma universal_newlines_cont (c : ascii) (r : string) :
  is_cont c = true ->
  universal_newlines (String c r) = String c (universal_newlines r).
Proof.
  intros H. apply universal_newlines_other. now apply cont_byte_is_not_CR.
Qed.

(** No carriage return survives the newline translation. *)
Lemma universal_newlines_no_CR_bounded (n : nat) :
  forall s, length s <= n -> has_char CR (universal_newlines s) = false.
Proof.
  induction n as [|n IH]; intros s Hlen.
  - destruct s; [reflexivity | simpl in Hlen; lia].
  - destruct s as [|c r]; [reflexivity|]. cbn [length] in Hlen.
    cbn [universal_newlines].
    destruct (Ascii.eqb c CR) eqn:Hc.
    + destruct r as [|c' r']; [reflexivity|]. cbn [length] in Hlen.
      destruct (Ascii.eqb c' LF); cbn [has_char];
        change (Ascii.eqb LF CR) with false; cbn [orb]; apply IH;
        cbn [length]; lia.
    + cbn [has_char]. rewrite Hc. cbn [orb]. apply IH. lia.
Qed.

(** The newline translation keeps well-formed UTF-8 well-formed. *)
Lemma universal_newlines_valid_bounded (n : nat) :
  forall s, length s <= n -> utf8_valid s = true ->
            utf8_valid (universal_newlines s) = true.
Proof.
  induction n as [|n IH]; intros s Hlen Hv.
  - destruct s; [reflexivity | simpl in Hlen; lia].
  - destruct s as [|b0 r0]; [reflexivity|]. cbn [length] in Hlen.
    destruct (Ascii.eqb b0 CR) eqn:Hcr.
    + apply Ascii.eqb_eq in Hcr. subst b0.
      cbn [utf8_valid] in Hv. change (byte_val CR <? 128)%nat with true in Hv.
      cbv iota in Hv.
      cbn [universal_newlines]. rewrite Ascii.eqb_refl.
      destruct r0 as [|c' r']; [reflexivity|]. cbn [length] in Hlen.
      destruct (Ascii.eqb c' LF) eqn:Hlf.
      * apply Ascii.eqb_eq in Hlf. subst c'.
        cbn [utf8_valid] in Hv. change (byte_val LF <? 128)%nat with true in Hv.
        cbv iota in Hv.
        cbn [utf8_valid]. change (byte_val LF <? 128)%nat with true. cbv iota.
        apply IH; [lia | exact Hv].
      * cbn [utf8_valid]. change (byte_val LF <? 128)%nat with true. cbv iota.
        apply IH; [cbn [length]; lia | exact Hv].
    + rewrite (universal_newlines_other _ _ Hcr).
      revert Hv. cbn [utf8_valid].
      destruct (byte_val b0 <? 128)%nat; [intros Hv; apply IH; [lia | exact Hv]|].
      destruct (byte_val b0 <? 194)%nat; [discriminate|].
      destruct (byte_val b0 <? 224)%nat.
      { destruct r0 as [|b1 r1]; [discriminate|]. cbn [length] in Hlen.
        intros Hv. apply andb_true_iff in Hv as [H1 Hv].
        rewrite (universal_newlines_cont _ _ H1), H1. cbn [andb].
        apply IH; [lia | exact Hv]. }
      destruct (byte_val b0 <? 240)%nat.
      { destruct r0 as [|b1 [|b2 r2]]; try discriminate. cbn [length] in Hlen.
        intros Hv. apply andb_true_iff in Hv as [Hv Hr].
        apply andb_true_iff in Hv as [H1 H2].
        assert (Hc1 : is_cont b1 = true)
          by (unfold second_of_3 in H1; now apply andb_true_iff in H1).
        rewrite (universal_newlines_cont _ _ Hc1),
                (universal_newlines_cont _ _ H2), H1, H2. cbn [andb].
        apply IH; [lia | exact Hr]. }
      destruct (byte_val b0 <? 245)%nat; [|discriminate].
      destruct r0 as [|b1 [|b2 [|b3 r3]]]; try discriminate.
      cbn [length] in Hlen.
      intros Hv. apply andb_true_iff in Hv as [Hv Hr].
      apply andb_true_iff in Hv as [Hv H3].
      apply andb_true_iff in Hv as [H1 H2].
      assert (Hc1 : is_cont b1 = true)
        by (unfold second_of_4 in H1; now apply andb_true_iff in H1).
      rewrite (universal_newlines_cont _ _ Hc1),
              (universal_newlines_cont _ _ H2),
              (universal_newlines_cont _ _ H3), H1, H2, H3. cbn [andb].
      apply IH; [lia | exact Hr].
Qed.

(** X12: whatever bytes a file holds, the text written between its
    markers is well-formed UTF-8 without any carriage return, and reading
    that text again gives it back unchanged: the read is idempotent. *)
Theorem content_is_clean_text (bytes : string) :
  has_char CR (read_text bytes) = false
  /\ utf8_valid (read_text bytes) = true
  /\ read_text (read_text bytes) = read_text bytes.
Proof.
  assert (Hcr : has_char CR (read_text bytes) = false)
    by (apply (universal_newlines_no_CR_bounded
                 (length (decode_utf8_ignore bytes))); lia).
  assert (Hv : utf8_valid (read_text bytes) = true)
    by (apply (universal_newlines_valid_bounded
                 (length (decode_utf8_ignore bytes)));
        [lia | apply decode_utf8_ignore_valid]).
  split; [exact Hcr|]. split; [exact Hv|]. now apply read_text_id.
Qed.

(** X13: the record boundaries are not protected.  Content is written
    as it is, so markers inside a file read like markers of the program.
    A directory holding [a.txt] and [c.txt] and a directory holding
    [a.txt], [b.txt] and [c.txt] give the same output file, byte for
    byte, when the files of the first hold the right markers: the output
    file does not determine the files it was made from, nor how many
    there were. *)
Theorem output_does_not_determine_the_files :
  let one :=
    mkWorld "/home/u"
      (Some (Dir [ ("a.txt",
                    File (ReadBytes ("1" ++ end_marker "a.txt"
                                     ++ start_marker "b.txt" ++ "2")));
                   ("c.txt",
                    File (ReadBytes ("w" ++ end_marker "b.txt"
                                     ++ start_marker "c.txt" ++ "3"))) ]))
      None in
  let two :=
    mkWorld "/home/u"
      (Some (Dir [ ("a.txt", File (ReadBytes "1"));
                   ("b.txt",
                    File (ReadBytes ("2" ++ end_marker "a.txt"
                                     ++ start_marker "c.txt" ++ "w")));
                   ("c.txt", File (ReadBytes "3")) ]))
      None in
  outfile (snd (main one "proj" "out.txt"))
  = outfile (snd (main two "proj" "out.txt"))
  /\ outfile (snd (main one "proj" "out.txt")) <> None
  /\ opened (snd (main one "proj" "out.txt"))
     = ["/home/u/proj/a.txt"; "/home/u/proj/c.txt"]
  /\ opened (snd (main two "proj" "out.txt"))
     = ["/home/u/proj/a.txt"; "/home/u/proj/b.txt"; "/home/u/proj/c.txt"]
  /\ processed_files (snd (main one "proj" "out.txt")) = 2
  /\ processed_files (snd (main two "proj" "out.txt")) = 3.
Proof.
  cbv zeta. repeat split; try (vm_compute; reflexivity).
  vm_compute. discriminate.
Qed.

(** ** Absolute paths *)

(** X14: with an absolute working directory, [abspath] always returns an
    absolute path in normal form: one or two leading slashes followed by
    components joined by single slashes, none of them empty, [.] or [..];
    it is never empty, and taking it again changes nothing.  The header
    lines and the self-reference guard work with such paths. *)
Theorem abspath_is_absolute_and_normal (cwd path : string) :
  startswith cwd "/" = true ->
  (exists k comps,
     (k = 1 \/ k = 2)
     /\ Forall (fun c => clean_comp c = true) comps
     /\ abspath cwd path = root_of k ++ String.concat "/" comps)
  /\ startswith (abspath cwd path) "/" = true
  /\ abspath cwd (abspath cwd path) = abspath cwd path.
Proof.
  intros Hcwd. split; [|split].
  - unfold abspath. apply normpath_absolute.
    now apply abspath_argument_absolute.
  - now apply abspath_absolute.
  - now apply abspath_idempotent.
Qed.

(** ** The further properties on concrete inputs *)

Lemma output_file_is_header_records_footer_witness :
  outfile (snd (main demo_world "proj" "out.txt"))
  = Some (header "/home/u/proj" "/home/u/out.txt"
          ++ render_records [ ("a.txt", "hello"); ("build", "all:");
                              ("src/m.py", "x"); ("src/out.txt", "old") ]
          ++ footer).
Proof.
  exact (output_file_is_header_records_footer demo_world "proj" "out.txt"
           eq_refl eq_refl).
Defined.

Lemma summary_counts_the_records_witness :
  processed_files (snd (main demo_world "proj" "out.txt")) = 4
  /\ skipped_files (snd (main demo_world "proj" "out.txt")) = 2.
Proof.
  destruct (summary_counts_the_records demo_world "proj" "out.txt"
              eq_refl eq_refl) as (Hp & Hs & _).
  split; [exact Hp | exact Hs].
Defined.

Lemma every_file_is_reported_once_witness :
  List.length (stdout (snd (main demo_world "proj" "out.txt")))
  + List.length (stderr (snd (main demo_world "proj" "out.txt")))
  = 6 + 2.
Proof.
  exact (proj1 (every_file_is_reported_once demo_world "proj" "out.txt"
                  eq_refl eq_refl)).
Defined.

Lemma run_without_files_witness :
  outfile (combine_files
             (mkWorld "/home/u"
                (Some (Dir [(".git", Dir [("config", File (ReadBytes "cfg"))])]))
                None)
             "proj" "out.txt" initial_state)
  = Some (header "/home/u/proj" "/home/u/out.txt" ++ footer).
Proof.
  exact (f_equal outfile
           (run_without_files
              (mkWorld "/home/u"
                 (Some (Dir [(".git", Dir [("config", File (ReadBytes "cfg"))])]))
                 None)
              "proj" "out.txt" eq_refl eq_refl)).
Defined.

Lemma output_name_does_not_change_the_records_witness :
  opened (snd (main demo_world "proj" "/tmp/one.txt"))
  = opened (snd (main demo_world "proj" "/tmp/two.txt")).
Proof.
  refine (proj1 (proj2 (proj2 (proj2
            (output_name_does_not_change_the_records demo_world "proj"
               "/tmp/one.txt" "/tmp/two.txt" eq_refl eq_refl _))))).
  intros dirpath ds fs f Hitem Hf.
  simpl in Hitem. destruct Hitem as [Hitem | [Hitem | []]];
    inversion Hitem; subst; simpl in Hf;
    repeat (destruct Hf as [<- | Hf];
            [split; vm_compute; discriminate|]);
    contradiction.
Defined.

Lemma relative_path_names_the_file_witness :
  abspath "/home/u" (join "/home/u/proj/src" "m.py") = "/home/u/proj/src/m.py"
  /\ join "/home/u/proj"
          (relpath "/home/u" (join "/home/u/proj/src" "m.py") "/home/u/proj")
     = "/home/u/proj/src/m.py".
Proof.
  destruct (relative_path_names_the_file demo_world "proj"
              "/home/u/proj/src" []
              [ ("m.py", ReadBytes "x"); ("bad", ReadOSError "denied");
                ("out.txt", ReadBytes "old") ]
              ("m.py", ReadBytes "x")
              eq_refl eq_refl
              (or_intror (or_introl eq_refl)) (or_introl eq_refl))
    as (Habs & Hjoin & _).
  split; [exact Habs | exact Hjoin].
Defined.

Lemma only_listed_files_are_opened_witness :
  startswith "/home/u/proj/a.txt" "/home/u/proj" = true.
Proof.
  exact (proj2 (proj2
           (only_listed_files_are_opened demo_world "proj" "out.txt"
              "/home/u/proj/a.txt" eq_refl eq_refl (or_introl eq_refl)))).
Defined.

Lemma ignored_extension_in_any_case_witness :
  splitext "Shot.PnG" = ("Shot", ".PnG")
  /\ opened (process_file "/w" "/w/p" "/w/out.txt" "/w/p"
               ("Shot.PnG", ReadBytes "x") initial_state) = [].
Proof.
  destruct (ignored_extension_in_any_case "Shot" ".PnG"
              eq_refl eq_refl eq_refl) as [Hsplit Hskip].
  split; [exact Hsplit|].
  exact (f_equal opened
           (Hskip "/w" "/w/p" "/w/out.txt" "/w/p" (ReadBytes "x") initial_state)).
Defined.

Lemma abspath_is_absolute_and_normal_witness :
  abspath "/home/u" (abspath "/home/u" "proj/../out/./x.txt")
  = abspath "/home/u" "proj/../out/./x.txt".
Proof.
  exact (proj2 (proj2
           (abspath_is_absolute_and_normal "/home/u" "proj/../out/./x.txt"
              eq_refl))).
Defined.

(** ** Ignored names never show in a marker *)

(** The walk with the program's pruning: below the root every directory
    name on the way to a yielded directory is outside [IGNORED_DIRS]. *)
Lemma os_walk_paths_pruned (k : nat) (n : node) :
  k = 1 \/ k = 2 ->
  clean_names n = true ->
  forall comps,
    Forall (fun x => clean_comp x = true) comps ->
    Forall (fun item : walk_item =>
              (exists chain,
                 Forall (fun x => clean_comp x = true) chain
                 /\ Forall (fun d => str_in d IGNORED_DIRS = false) chain
                 /\ fst (fst item)
                    = root_of k ++ String.concat "/" (comps ++ chain))
              /\ Forall (fun f : string * read_outcome =>
                           clean_comp (fst f) = true) (snd item))
           (os_walk prune_dirs (root_of k ++ String.concat "/" comps) n).
Proof.
  intros Hk. induction n as [r | es IH] using node_induction;
    intros Hclean comps Hcomps; [constructor|].
  apply clean_names_Dir in Hclean.
  rewrite os_walk_Dir. constructor.
  - cbn [fst snd]. split.
    + exists []. repeat split; [constructor | constructor | now rewrite app_nil_r].
    + now apply filenames_clean.
  - generalize (dirnames es) as names. intros names.
    induction es as [| [d sub] l IHl]; [constructor|].
    inversion IH as [| ? ? Hsub Hl]; subst.
    inversion Hclean as [| ? ? [Hd Hs] Hcl]; subst. cbn [fst snd] in *.
    cbn [flat_map fst snd]. apply Forall_app. split; [|now apply IHl].
    destruct (str_in d (prune_dirs names)) eqn:Hkeep; [|constructor].
    assert (Hnot : str_in d IGNORED_DIRS = false).
    { unfold prune_dirs in Hkeep. rewrite str_in_filter in Hkeep.
      apply andb_true_iff in Hkeep as [Hkeep _].
      now apply negb_true_iff in Hkeep. }
    rewrite join_normal by assumption.
    specialize (Hsub Hs (comps ++ [d])%list).
    eapply Forall_impl; [|apply Hsub; apply Forall_app; split;
                           [assumption | constructor; [assumption | constructor]]].
    intros item [(chain & Hchain & Hign & Hpath) Hfiles]. split; [|exact Hfiles].
    exists (d :: chain). split; [now constructor|]. split; [now constructor|].
    now rewrite Hpath, <- app_assoc.
Qed.

(** X15: no marker names anything below an ignored directory.  With an
    absolute working directory and a tree of ordinary names, the relative
    path of every file the walk lists, cut at its slashes, ends with the
    file name, and none of the directory names before it is in
    [IGNORED_DIRS]. *)
Theorem relative_paths_avoid_ignored_dirs (w : world) (input_dir : string)
    (dirpath : string) (ds : list string) (fs : list (string * read_outcome))
    (f : string * read_outcome) :
  startswith (getcwd w) "/" = true ->
  match input_node w with
  | Some n => clean_names n = true
  | None => True
  end ->
  let cwd := getcwd w in
  let abs_input_dir := abspath cwd input_dir in
  In (dirpath, ds, fs) (walk_of w abs_input_dir) ->
  In f fs ->
  let relative_path := relpath cwd (join dirpath (fst f)) abs_input_dir in
  last (split slash relative_path) "" = fst f
  /\ Forall (fun d => str_in d IGNORED_DIRS = false)
            (removelast (split slash relative_path)).
Proof.
  intros Hcwd Hclean cwd abs_input_dir Hitem Hf. cbv zeta.
  unfold walk_of in Hitem.
  destruct (input_node w) as [n|]; [|contradiction].
  destruct (normpath_absolute _
              (abspath_argument_absolute (getcwd w) input_dir Hcwd))
    as (k & comps & Hk & Hcomps & Hnorm).
  fold (abspath (getcwd w) input_dir) in Hnorm.
  fold cwd in Hnorm. fold abs_input_dir in Hnorm.
  rewrite Hnorm in Hitem |- *.
  pose proof (os_walk_paths_pruned k n Hk Hclean comps Hcomps) as Hall.
  rewrite Forall_forall in Hall.
  destruct (Hall _ Hitem) as [(chain & Hchain & Hign & Hpath) Hfiles].
  cbn [fst snd] in Hpath, Hfiles.
  rewrite Forall_forall in Hfiles. specialize (Hfiles _ Hf).
  assert (Hrest : Forall (fun x => clean_comp x = true) (chain ++ [fst f]))
    by (apply Forall_app; split; [exact Hchain | now constructor]).
  assert (Hne : (chain ++ [fst f])%list <> []) by (destruct chain; discriminate).
  rewrite Hpath, join_normal; try assumption;
    [|apply Forall_app; now split].
  rewrite <- app_assoc, relpath_below by assumption.
  rewrite split_concat; [| exact Hne |].
  - now rewrite last_last, removelast_last.
  - eapply Forall_impl; [|exact Hrest].
    intros a Ha. now apply clean_comp_spec in Ha.
Qed.

Lemma relative_paths_avoid_ignored_dirs_witness :
  last (split slash
          (relpath "/home/u" (join "/home/u/proj/src" "m.py") "/home/u/proj"))
       "" = "m.py".
Proof.
  exact (proj1 (relative_paths_avoid_ignored_dirs demo_world "proj"
                  "/home/u/proj/src" []
                  [ ("m.py", ReadBytes "x"); ("bad", ReadOSError "denied");
                    ("out.txt", ReadBytes "old") ]
                  ("m.py", ReadBytes "x")
                  eq_refl eq_refl
                  (or_intror (or_introl eq_refl)) (or_introl eq_refl))).
Defined.
